(** * The per-chain contract monitor of [src/monitor/monitor.ts]

    A shallow embedding of [ChainMonitor]: the adaptive block poller
    ([processBlock]), the bounded-retry bytecode retriever
    ([processBytecode]) and the [running] gate ([mySetTimeout], [stop]).

    Numbers.  Block heights and retry counters are integer-valued
    JavaScript numbers (exact below 2^53) and are modelled by [Z].  The
    pauses are JavaScript numbers that are multiplied, divided and clamped;
    the monitor is written once over a class [Number] of such numbers, with
    two instances: [Double], the IEEE binary64 numbers of JavaScript, on
    which the model computes what the program computes, and [Rational], the
    same operations without rounding.  What does not depend on arithmetic is
    proved for every instance; the statements about the size of the pause
    are proved for [Double], rounding, infinities and [NaN] included.
    [Rational] only serves to say what the rounded results approximate.

    Asynchrony.  A promise chain [p.then(f).catch(g).finally(h)] is modelled
    by the function that runs [f], [g], [h] on the outcome [p] settles with.
    The callbacks live in a monad that threads the state they mutate, records
    the calls they make to the outside (logger, timers, provider, source
    fetcher, injector) and propagates exceptions.  The recorded calls return
    normally; the address derivation, the hex conversion and the decoding,
    which the source runs under its handlers, may throw. *)

From Stdlib Require Import ZArith QArith Qminmax Qpower Lqa Lia Floats.
From Stdlib Require Import List String Ascii DecimalString Bool Sorted.
Import ListNotations.

Local Open Scope string_scope.
Local Open Scope list_scope.
Local Open Scope Z_scope.

(** ** JavaScript values used by the monitor *)

(** The result of [parseInt(s)]: [None] is [NaN] (the variable is unset or
    does not start with an integer), [Some z] the parsed integer. *)
Definition JsInt := option Z.

(** The numbers the pauses are computed with. *)
Class Number := {
  number : Type;
  of_int : Z -> number;
  mul : number -> number -> number;
  div : number -> number -> number;
  Math_min : number -> number -> number;
  Math_max : number -> number -> number
}.

(** A literal with one decimal, [1.1] being [tenths 11]: the number nearest
    to the quotient. *)
Definition tenths {num : Number} (n : Z) : number := div (of_int n) (of_int 10).

(** Exact arithmetic: what the doubles approximate.  (The quotient by zero,
    which [Q] sets to zero, is never taken: the factor is not zero, see
    [or_default_nonzero].) *)
Definition Rational : Number :=
  {| number := Q;
     of_int := inject_Z;
     mul := Qmult;
     div := Qdiv;
     Math_min := Qmin;
     Math_max := Qmax |}.

(** [Math.min] and [Math.max] of two doubles: [NaN] if either is, and [-0]
    below [+0]. *)
Definition double_min (a b : float) : float :=
  if PrimFloat.is_nan a || PrimFloat.is_nan b then PrimFloat.nan
  else if PrimFloat.ltb a b then a
  else if PrimFloat.ltb b a then b
  else match PrimFloat.classify a with NZero => a | _ => b end.

Definition double_max (a b : float) : float :=
  if PrimFloat.is_nan a || PrimFloat.is_nan b then PrimFloat.nan
  else if PrimFloat.ltb a b then b
  else if PrimFloat.ltb b a then a
  else match PrimFloat.classify a with PZero => a | _ => b end.

(** IEEE binary64 arithmetic, round to nearest even. *)
Definition Double : Number :=
  {| number := float;
     of_int := fun z => SF2Prim (binary_normalize prec emax z 0 false);
     mul := PrimFloat.mul;
     div := PrimFloat.div;
     Math_min := double_min;
     Math_max := double_max |}.

(** [parseInt(...) || d]: [NaN] and [0] are falsy, every other number is
    kept. *)
Definition or_default {num : Number} (x : JsInt) (d : number) : number :=
  match x with
  | Some z => if z =? 0 then d else of_int z
  | None => d
  end.

(** As [or_default], for the one tunable that stays an integer. *)
Definition or_default_Z (x : JsInt) (d : Z) : Z :=
  match x with
  | Some z => if z =? 0 then d else z
  | None => d
  end.

(** Truthiness of a [string | null] field: [null] and the empty string are
    falsy. *)
Definition truthy (s : option string) : bool :=
  match s with
  | None => false
  | Some s => negb (String.eqb s "")
  end.

(** An [Error] object, by its [message]. *)
Definition Error := string.

(** How a callback ends: normally with a value, or by throwing. *)
Inductive Completion (A : Type) : Type :=
| Normal (a : A)
| Throw (err : Error).
Arguments Normal {A} a.
Arguments Throw {A} err.

(** How a promise settles. *)
Inductive Settled (A : Type) : Type :=
| Resolved (a : A)
| Rejected (err : Error).
Arguments Resolved {A} a.
Arguments Rejected {A} err.

(** ** The environment and the module constants *)

(** [process.env] after [dotenv.config], each variable already passed
    through [parseInt].  [env_MONITOR_START chainId] is the variable
    [MONITOR_START_<chainId>]: [None] when it is undefined, otherwise what
    [parseInt] makes of it. *)
Class ProcessEnv := {
  env_BLOCK_PAUSE_FACTOR : JsInt;
  env_BLOCK_PAUSE_UPPER_LIMIT : JsInt;
  env_BLOCK_PAUSE_LOWER_LIMIT : JsInt;
  env_GET_BYTECODE_RETRY_PAUSE : JsInt;
  env_GET_BLOCK_PAUSE : JsInt;
  env_INITIAL_GET_BYTECODE_TRIES : JsInt;
  env_MONITOR_START : string -> option JsInt
}.

Definition BLOCK_PAUSE_FACTOR {num : Number} {env : ProcessEnv} : number :=
  or_default env_BLOCK_PAUSE_FACTOR (tenths 11).
Definition BLOCK_PAUSE_UPPER_LIMIT {num : Number} {env : ProcessEnv} : number :=
  or_default env_BLOCK_PAUSE_UPPER_LIMIT (mul (of_int 30) (of_int 1000)).
Definition BLOCK_PAUSE_LOWER_LIMIT {num : Number} {env : ProcessEnv} : number :=
  or_default env_BLOCK_PAUSE_LOWER_LIMIT (mul (tenths 5) (of_int 1000)).

(** ** Data of the chain provider *)

(** The fields of a web3 [Transaction] the monitor reads. *)
Record Transaction := {
  tx_hash : string;
  tx_from : string;
  tx_to : option string;
  tx_nonce : Z
}.

Record Block := {
  block_number : Z;
  transactions : list Transaction
}.

Definition createsContract (tx : Transaction) : bool :=
  negb (truthy (tx_to tx)).

(** ** Collaborators outside the file

    [ethers.utils.getContractAddress] (which reads the [from] and [nonce]
    of its argument), [Web3.utils.hexToBytes], [cborDecode] and
    [SourceAddress.fromCborData] are taken as parameters; each may throw. *)
Class Externals := {
  CborData : Type;
  SourceAddress : Type;
  Contract : Type;
  contract_name : Contract -> string;
  getContractAddress : string -> Z -> Completion string;
  hexToBytes : string -> Completion (list Z);
  cborDecode : list Z -> Completion CborData;
  fromCborData : CborData -> Completion SourceAddress
}.

(** ** The monitor object and what its callbacks do to the outside *)

Record ChainMonitor {num : Number} := {
  chainId : string;
  running : bool;
  getBytecodeRetryPause : number;
  getBlockPause : number;
  initialGetBytecodeTries : Z
}.

Definition set_running {num : Number} (b : bool) (m : ChainMonitor)
  : ChainMonitor :=
  {| chainId := chainId m; running := b;
     getBytecodeRetryPause := getBytecodeRetryPause m;
     getBlockPause := getBlockPause m;
     initialGetBytecodeTries := initialGetBytecodeTries m |}.

Definition set_getBlockPause {num : Number} (p : number) (m : ChainMonitor)
  : ChainMonitor :=
  {| chainId := chainId m; running := running m;
     getBytecodeRetryPause := getBytecodeRetryPause m;
     getBlockPause := p;
     initialGetBytecodeTries := initialGetBytecodeTries m |}.

(** The constructor: the three pauses and counters read from the
    environment; [running] is not yet set (falsy). *)
Definition new_ChainMonitor {num : Number} {env : ProcessEnv} (chain : string)
  : ChainMonitor :=
  {| chainId := chain;
     running := false;
     getBytecodeRetryPause :=
       or_default env_GET_BYTECODE_RETRY_PAUSE (mul (of_int 5) (of_int 1000));
     getBlockPause := or_default env_GET_BLOCK_PAUSE (mul (of_int 10) (of_int 1000));
     initialGetBytecodeTries := or_default_Z env_INITIAL_GET_BYTECODE_TRIES 3 |}.

(** The two functions handed to [setTimeout], with the arguments they will
    be called with. *)
Inductive Handler :=
| ProcessBlock (blockNumber : Z)
| ProcessBytecode (address : string) (retriesLeft : Z).

Inductive Level := Info | Err.

(** The objects that are logged. *)
Inductive LogObject {num : Number} :=
| LogStart (startBlock : JsInt)
| LogBlockWait (blockNumber : Z) (pause : number)
| LogBlock (blockNumber : Z)
| LogBytecode (address : string) (retriesLeft : Z)
| LogAddress (address : string)
| LogContract (name : string) (address : string).

(** Calls that leave the monitor.  [GetBlockNumber], [GetBlock] and
    [GetCode] are the provider requests; the arguments of [GetCode] are what
    the continuation of the request closes over.  [GetBlockNaN] is the
    request [getBlock(NaN, true)], which only [start] can make.  [Assemble]
    is the hand-off to the source fetcher, with the data its callback closes
    over. *)
Inductive Effect {num : Number} {ext : Externals} :=
| Log (lvl : Level) (loc : string) (obj : LogObject) (msg : string)
| SetTimeout (h : Handler) (timeout : number)
| GetBlockNumber
| GetBlock (blockNumber : Z)
| GetBlockNaN
| GetCode (address : string) (retriesLeft : Z)
| Assemble (metadataAddress : SourceAddress) (address bytecode : string)
| Inject (contract : Contract) (bytecode chain : string) (addresses : list string).

(** ** The callback monad: state, calls made, exceptions *)

Section Monad.
Context {num : Number} {ext : Externals}.

Definition M (S A : Type) : Type := S -> Completion A * S * list Effect.

Definition ret {S A} (a : A) : M S A := fun s => (Normal a, s, []).

Definition bind {S A B} (c : M S A) (k : A -> M S B) : M S B :=
  fun s =>
    match c s with
    | (Normal a, s1, e1) =>
        let '(r, s2, e2) := k a s1 in (r, s2, e1 ++ e2)
    | (Throw err, s1, e1) => (Throw err, s1, e1)
    end.

Definition throw {S A} (err : Error) : M S A := fun s => (Throw err, s, []).

Definition lift {S A} (c : Completion A) : M S A := fun s => (c, s, []).

Definition get {S} : M S S := fun s => (Normal s, s, []).

Definition modify {S} (f : S -> S) : M S unit := fun s => (Normal tt, f s, []).

Definition emit {S} (e : Effect) : M S unit := fun s => (Normal tt, s, [e]).

(** [try { c } catch (err) { h err }] *)
Definition try_catch {S A} (c : M S A) (h : Error -> M S A) : M S A :=
  fun s =>
    match c s with
    | (Normal a, s1, e1) => (Normal a, s1, e1)
    | (Throw err, s1, e1) =>
        let '(r, s2, e2) := h err s1 in (r, s2, e1 ++ e2)
    end.

(** [p.finally(h)]: [h] runs however [p] ended; the chain ends as [p] did
    unless [h] throws. *)
Definition finally {S A} (c : M S A) (h : M S unit) : M S A :=
  fun s =>
    let '(r, s1, e1) := c s in
    match h s1 with
    | (Normal _, s2, e2) => (r, s2, e1 ++ e2)
    | (Throw err, s2, e2) => (Throw err, s2, e1 ++ e2)
    end.

(** Run a computation on a component of a larger state. *)
Definition zoom {S T A} (proj : T -> S) (upd : S -> T -> T) (c : M S A) : M T A :=
  fun t => let '(r, s1, e1) := c (proj t) in (r, upd s1 t, e1).

(** [for (const x of xs) body(x)] *)
Fixpoint for_of {S A} (xs : list A) (body : A -> M S unit) : M S unit :=
  match xs with
  | [] => ret tt
  | x :: rest => bind (body x) (fun _ => for_of rest body)
  end.
End Monad.

Notation "x <- c ;; k" := (bind c (fun x => k))
  (at level 61, c at next level, right associativity).
Notation "c ;; k" := (bind c (fun _ => k))
  (at level 61, right associativity).

(** ** The monitor *)

Section Monitor.
Context {num : Number} {env : ProcessEnv} {ext : Externals}.

(** What the callbacks of one [processBlock] call share: the monitor and the
    parameter [blockNumber], which the [then] callback increments and the
    [finally] callback reads. *)
Record BlockFrame := {
  this : ChainMonitor;
  blockNumber : Z
}.

Definition on_this {A} (c : M ChainMonitor A) : M BlockFrame A :=
  zoom this (fun m fr => {| this := m; blockNumber := blockNumber fr |}) c.

Definition mySetTimeout (handler : Handler) (timeout : number) : M ChainMonitor unit :=
  m <- get;;
  if running m then emit (SetTimeout handler timeout) else ret tt.

Definition stop : M ChainMonitor unit :=
  modify (set_running false).

(** *** [processBytecode] *)

(** The synchronous part: the guard [retriesLeft-- <= 0], then the request,
    whose continuation sees the decremented counter. *)
Definition processBytecode (address : string) (retriesLeft : Z) : M ChainMonitor unit :=
  if retriesLeft <=? 0 then ret tt
  else emit (GetCode address (retriesLeft - 1)).

Definition getCode_then (address : string) (retriesLeft : Z) (bytecode : string)
  : M ChainMonitor unit :=
  if String.eqb bytecode "0x" then
    emit (Log Info "[PROCESS_BYTECODE]" (LogBytecode address retriesLeft) "Empty bytecode");;
    m <- get;;
    mySetTimeout (ProcessBytecode address retriesLeft) (getBytecodeRetryPause m)
  else
    numericBytecode <- lift (hexToBytes bytecode);;
    try_catch
      (cborData <- lift (cborDecode numericBytecode);;
       metadataAddress <- lift (fromCborData cborData);;
       emit (Assemble metadataAddress address bytecode))
      (fun err =>
         emit (Log Err "[GET_BYTECODE:METADATA_READING]" (LogAddress address) err)).

Definition getCode_catch (address : string) (retriesLeft : Z) (err : Error)
  : M ChainMonitor unit :=
  emit (Log Err "[GET_BYTECODE]" (LogBytecode address retriesLeft) err);;
  m <- get;;
  mySetTimeout (ProcessBytecode address retriesLeft) (getBytecodeRetryPause m).

(** [getCode(address).then(...).catch(...)], run on what the request settled
    with. *)
Definition processBytecode_settled (address : string) (retriesLeft : Z)
  (o : Settled string) : M ChainMonitor unit :=
  try_catch
    match o with
    | Resolved bytecode => getCode_then address retriesLeft bytecode
    | Rejected err => throw err
    end
    (getCode_catch address retriesLeft).

(** The callback given to [sourceFetcher.assemble], and the two callbacks on
    the promise of [injector.inject]. *)
Definition assemble_callback (address bytecode : string) (contract : Contract)
  : M ChainMonitor unit :=
  m <- get;;
  emit (Inject contract bytecode (chainId m) [address]).

Definition inject_settled (address : string) (contract : Contract) (o : Settled unit)
  : M ChainMonitor unit :=
  match o with
  | Resolved _ =>
      emit (Log Info "[PROCESS_BYTECODE]" (LogContract (contract_name contract) address)
              "Successfully injected")
  | Rejected err =>
      emit (Log Err "[PROCESS_BYTECODE]" (LogContract (contract_name contract) address) err)
  end.

(** *** [processBlock] *)

Definition processBlock (blockNumber : Z) : M ChainMonitor unit :=
  emit (GetBlock blockNumber).

Definition scan_transaction (tx : Transaction) : M BlockFrame unit :=
  if createsContract tx then
    address <- lift (getContractAddress (tx_from tx) (tx_nonce tx));;
    fr <- get;;
    on_this (processBytecode address (initialGetBytecodeTries (this fr)))
  else ret tt.

Definition getBlock_then (block : option Block) : M BlockFrame unit :=
  match block with
  | None =>
      on_this (modify (fun m =>
        set_getBlockPause (mul (getBlockPause m) BLOCK_PAUSE_FACTOR) m));;
      on_this (modify (fun m =>
        set_getBlockPause (Math_min (getBlockPause m) BLOCK_PAUSE_UPPER_LIMIT) m));;
      fr <- get;;
      emit (Log Info "[PROCESS_BLOCK]"
              (LogBlockWait (blockNumber fr) (getBlockPause (this fr)))
              "Waiting for new blocks")
  | Some block =>
      on_this (modify (fun m =>
        set_getBlockPause (div (getBlockPause m) BLOCK_PAUSE_FACTOR) m));;
      on_this (modify (fun m =>
        set_getBlockPause (Math_max (getBlockPause m) BLOCK_PAUSE_LOWER_LIMIT) m));;
      for_of (transactions block) scan_transaction;;
      modify (fun fr => {| this := this fr; blockNumber := blockNumber fr + 1 |})
  end.

Definition getBlock_catch (err : Error) : M BlockFrame unit :=
  fr <- get;;
  emit (Log Err "[PROCESS_BLOCK:FAILED]" (LogBlock (blockNumber fr)) err).

Definition getBlock_finally : M BlockFrame unit :=
  fr <- get;;
  on_this (mySetTimeout (ProcessBlock (blockNumber fr)) (getBlockPause (this fr))).

(** [getBlock(blockNumber, true).then(...).catch(...).finally(...)], run on
    what the request settled with ([Resolved None]: no such block yet). *)
Definition processBlock_settled (o : Settled (option Block)) : M BlockFrame unit :=
  finally
    (try_catch
       match o with
       | Resolved block => getBlock_then block
       | Rejected err => throw err
       end
       getBlock_catch)
    getBlock_finally.

(** *** [start]

    [start] is an [async] function with one [await]: it runs up to the
    request [getBlockNumber()] when the chain has no start block in the
    environment, and is resumed with what that request settled with.  With a
    start block in the environment it runs to its end at once. *)

(** The last two statements of [start].  The heights the block loop follows
    are integers; a start block that [parseInt] made [NaN] is handed to the
    provider as it is, and the loop it would start is not followed. *)
Definition start_from (startBlock : JsInt) : M ChainMonitor unit :=
  match startBlock with
  | Some blockNumber => processBlock blockNumber
  | None => emit GetBlockNaN
  end;;
  emit (Log Info "[MONITOR_START]" (LogStart startBlock) "Starting monitor").

Definition start : M ChainMonitor unit :=
  modify (set_running true);;
  m <- get;;
  match env_MONITOR_START (chainId m) with
  | Some startBlock => start_from startBlock
  | None => emit GetBlockNumber
  end.

(** [start] from its [await] on: a rejected request rejects the promise of
    [start], and nothing else happens. *)
Definition start_resumed (o : Settled Z) : M ChainMonitor unit :=
  match o with
  | Resolved startBlock => start_from (Some startBlock)
  | Rejected err => throw err
  end.

End Monitor.

(** ** Running the two loops

    The provider answers and the calls of [stop] are the events; a timer
    that was set fires and calls its handler.  Each loop is followed through
    the timers and requests its own callbacks emit. *)

Inductive Event (A : Type) : Type :=
| Settles (o : Settled A)
| StopCalled.
Arguments Settles {A} o.
Arguments StopCalled {A}.

Section Loops.
Context {num : Number} {env : ProcessEnv} {ext : Externals}.

Definition scheduled (effs : list Effect) : list (Handler * number) :=
  flat_map (fun e => match e with SetTimeout h t => [(h, t)] | _ => [] end) effs.

Definition block_requests (effs : list Effect) : list Z :=
  flat_map (fun e => match e with GetBlock bn => [bn] | _ => [] end) effs.

Definition code_requests (effs : list Effect) : list (string * Z) :=
  flat_map (fun e => match e with GetCode a r => [(a, r)] | _ => [] end) effs.

(** The first timer set for [processBlock], and for [processBytecode]. *)
Fixpoint next_block (ts : list (Handler * number)) : option (Z * number) :=
  match ts with
  | [] => None
  | (ProcessBlock bn, t) :: _ => Some (bn, t)
  | _ :: rest => next_block rest
  end.

Fixpoint next_bytecode (ts : list (Handler * number)) : option (string * Z * number) :=
  match ts with
  | [] => None
  | (ProcessBytecode a r, t) :: _ => Some (a, r, t)
  | _ :: rest => next_bytecode rest
  end.

(** The block loop while the request for [bn] is in flight. *)
Fixpoint await_block (evs : list (Event (option Block))) (m : ChainMonitor) (bn : Z)
  : list Effect * ChainMonitor :=
  match evs with
  | [] => ([], m)
  | StopCalled :: rest =>
      let '(_, m1, e1) := stop m in
      let '(e, m') := await_block rest m1 bn in (e1 ++ e, m')
  | Settles o :: rest =>
      let '(_, fr, e1) := processBlock_settled o {| this := m; blockNumber := bn |} in
      match next_block (scheduled e1) with
      | Some (bn', _) =>
          let '(_, m2, e2) := processBlock bn' (this fr) in
          let '(e, m') := await_block rest m2 bn' in (e1 ++ e2 ++ e, m')
      | None => (e1, this fr)
      end
  end.

(** The block loop from the call [processBlock(bn)]. *)
Definition poller (evs : list (Event (option Block))) (m : ChainMonitor) (bn : Z)
  : list Effect * ChainMonitor :=
  let '(_, m1, e1) := processBlock bn m in
  let '(e, m') := await_block evs m1 bn in (e1 ++ e, m').

(** The retry loop of one candidate while its request is in flight;
    [retriesLeft] is the counter the continuation closed over. *)
Fixpoint await_code (evs : list (Event string)) (m : ChainMonitor)
  (address : string) (retriesLeft : Z) : list Effect * ChainMonitor :=
  match evs with
  | [] => ([], m)
  | StopCalled :: rest =>
      let '(_, m1, e1) := stop m in
      let '(e, m') := await_code rest m1 address retriesLeft in (e1 ++ e, m')
  | Settles o :: rest =>
      let '(_, m1, e1) := processBytecode_settled address retriesLeft o m in
      match next_bytecode (scheduled e1) with
      | Some (a, r, _) =>
          let '(_, m2, e2) := processBytecode a r m1 in
          match code_requests e2 with
          | (a', r') :: _ =>
              let '(e, m') := await_code rest m2 a' r' in (e1 ++ e2 ++ e, m')
          | [] => (e1 ++ e2, m2)
          end
      | None => (e1, m1)
      end
  end.

(** The retry loop from the call [processBytecode(address, retriesLeft)]. *)
Definition retriever (evs : list (Event string)) (m : ChainMonitor)
  (address : string) (retriesLeft : Z) : list Effect * ChainMonitor :=
  let '(_, m1, e1) := processBytecode address retriesLeft m in
  match code_requests e1 with
  | (a', r') :: _ =>
      let '(e, m') := await_code evs m1 a' r' in (e1 ++ e, m')
  | [] => (e1, m1)
  end.

End Loops.

(** ** The block loop, timer by timer

    [await_block] lets a timer fire as soon as it is set.  Here the wait for
    a timer is a state of its own, so that [stop] can fall between the
    setting of a timer and its firing: [setTimeout] is never undone, and the
    handler of a timer that elapses is called whatever the flag says. *)

Inductive PollEvent :=
| Answers (o : Settled (option Block))
| TimerElapses
| StopIsCalled.

(** Where the loop is: a request is in flight, a timer is pending, or neither
    (the loop has ended). *)
Inductive PollState :=
| Requested (blockNumber : Z)
| Waiting (blockNumber : Z)
| Ended.

Section TimerLoop.
Context {num : Number} {env : ProcessEnv} {ext : Externals}.

(** An answer is taken by the request in flight and a timer elapses when one
    is pending; otherwise there is nothing for the event to act on. *)
Fixpoint poll_loop (evs : list PollEvent) (m : ChainMonitor) (st : PollState)
  : list Effect * ChainMonitor * PollState :=
  match evs with
  | [] => ([], m, st)
  | StopIsCalled :: rest =>
      let '(_, m1, e1) := stop m in
      let '(e, m', st') := poll_loop rest m1 st in (e1 ++ e, m', st')
  | Answers o :: rest =>
      match st with
      | Requested bn =>
          let '(_, fr, e1) := processBlock_settled o {| this := m; blockNumber := bn |} in
          let st1 := match next_block (scheduled e1) with
                     | Some (bn', _) => Waiting bn'
                     | None => Ended
                     end in
          let '(e, m', st') := poll_loop rest (this fr) st1 in (e1 ++ e, m', st')
      | _ => poll_loop rest m st
      end
  | TimerElapses :: rest =>
      match st with
      | Waiting bn =>
          let '(_, m1, e1) := processBlock bn m in
          let '(e, m', st') := poll_loop rest m1 (Requested bn) in (e1 ++ e, m', st')
      | _ => poll_loop rest m st
      end
  end.

End TimerLoop.

Definition elapses (ev : PollEvent) : bool :=
  match ev with
  | TimerElapses => true
  | _ => false
  end.

(** ** Every callback of the monitor, in any order

    What the event loop may run on a monitor: the two public methods, a timer
    firing, and the continuation of each pending request.  [run_tasks] runs
    any sequence of them, with any arguments. *)

Inductive Task {num : Number} {ext : Externals} :=
| CallStart
| StartResumed (o : Settled Z)
| CallStop
| TimerFires (h : Handler)
| BlockSettled (blockNumber : Z) (o : Settled (option Block))
| CodeSettled (address : string) (retriesLeft : Z) (o : Settled string)
| Assembled (address bytecode : string) (contract : Contract)
| InjectSettled (address : string) (contract : Contract) (o : Settled unit).

Section Tasks.
Context {num : Number} {env : ProcessEnv} {ext : Externals}.

Definition fire (h : Handler) : M ChainMonitor unit :=
  match h with
  | ProcessBlock bn => processBlock bn
  | ProcessBytecode a r => processBytecode a r
  end.

Definition run_task (t : Task) : M ChainMonitor unit :=
  match t with
  | CallStart => start
  | StartResumed o => start_resumed o
  | CallStop => stop
  | TimerFires h => fire h
  | BlockSettled bn o =>
      fun m =>
        let '(c, fr, e) := processBlock_settled o {| this := m; blockNumber := bn |} in
        (c, this fr, e)
  | CodeSettled a r o => processBytecode_settled a r o
  | Assembled a b c => assemble_callback a b c
  | InjectSettled a c o => inject_settled a c o
  end.

Fixpoint run_tasks (ts : list Task) (m : ChainMonitor) : list Effect * ChainMonitor :=
  match ts with
  | [] => ([], m)
  | t :: rest =>
      let '(_, m1, e1) := run_task t m in
      let '(e, m') := run_tasks rest m1 in (e1 ++ e, m')
  end.

Definition is_start (t : Task) : bool :=
  match t with
  | CallStart => true
  | _ => false
  end.

End Tasks.

(** The poll pause lies within the two limits (exact arithmetic). *)
Definition pause_in_bounds {env : ProcessEnv} (m : ChainMonitor (num := Rational))
  : Prop :=
  (BLOCK_PAUSE_LOWER_LIMIT (num := Rational) <= getBlockPause m /\
   getBlockPause m <= BLOCK_PAUSE_UPPER_LIMIT (num := Rational))%Q.

(** Successive entries differ by [R]. *)
Fixpoint stepwise {A} (R : A -> A -> Prop) (l : list A) : Prop :=
  match l with
  | a :: (b :: _) as rest => R a b /\ stepwise R rest
  | _ => True
  end.

(** ** Vocabulary of the statements *)

Section Vocabulary.
Context {num : Number} {env : ProcessEnv} {ext : Externals}.

(** The timer [mySetTimeout] sets, if any. *)
Definition timer (m : ChainMonitor) (h : Handler) (t : number) : list Effect :=
  if running m then [SetTimeout h t] else [].

(** The monitor after the pause adjustment of a found block, and of a miss. *)
Definition shrunk (m : ChainMonitor) : ChainMonitor :=
  set_getBlockPause
    (Math_max (div (getBlockPause m) BLOCK_PAUSE_FACTOR) BLOCK_PAUSE_LOWER_LIMIT) m.

Definition grown (m : ChainMonitor) : ChainMonitor :=
  set_getBlockPause
    (Math_min (mul (getBlockPause m) BLOCK_PAUSE_FACTOR) BLOCK_PAUSE_UPPER_LIMIT) m.

(** The address derivation does not throw on [tx] (it is only called on
    creations). *)
Definition derives (tx : Transaction) : bool :=
  if createsContract tx then
    match getContractAddress (tx_from tx) (tx_nonce tx) with
    | Normal _ => true
    | Throw _ => false
    end
  else true.

(** ... on any transaction of the block. *)
Definition scans (b : Block) : bool := forallb derives (transactions b).

(** [a] is the address derived for [tx]. *)
Definition derived (tx : Transaction) (a : string) : Prop :=
  getContractAddress (tx_from tx) (tx_nonce tx) = Normal a.

(** The addresses derived for the creations among [txs], in order. *)
Definition candidates (txs : list Transaction) : list string :=
  flat_map
    (fun tx =>
       if createsContract tx then
         match getContractAddress (tx_from tx) (tx_nonce tx) with
         | Normal a => [a]
         | Throw _ => []
         end
       else [])
    txs.

(** What [processBytecode] emits when called on each address in turn with
    the initial number of tries. *)
Definition dispatched (m : ChainMonitor) (addrs : list string) : list Effect :=
  flat_map
    (fun a =>
       if initialGetBytecodeTries m <=? 0 then []
       else [GetCode a (initialGetBytecodeTries m - 1)])
    addrs.

(** The decoding of non-empty code: what is handed to the source fetcher, or
    the one log entry of a failed decoding. *)
Definition extraction (a bytecode : string) (bytes : list Z) : list Effect :=
  match cborDecode bytes with
  | Normal data =>
      match fromCborData data with
      | Normal metadataAddress => [Assemble metadataAddress a bytecode]
      | Throw err => [Log Err "[GET_BYTECODE:METADATA_READING]" (LogAddress a) err]
      end
  | Throw err => [Log Err "[GET_BYTECODE:METADATA_READING]" (LogAddress a) err]
  end.

(** The provider found no code, or failed. *)
Definition non_success (o : Settled string) : bool :=
  match o with
  | Resolved bytecode => String.eqb bytecode "0x"
  | Rejected _ => true
  end.

End Vocabulary.

(** [N] consecutive answers that there is no such block yet. *)
Definition misses (N : nat) : list (Event (option Block)) :=
  repeat (Settles (Resolved None)) N.

(** The request of a candidate settled without code. *)
Definition failed (ev : Event string) : Prop :=
  match ev with
  | Settles o => non_success o = true
  | StopCalled => False
  end.

(** [N] answers with the block [b]. *)
Definition hits (N : nat) (b : Block) : list (Event (option Block)) :=
  repeat (Settles (Resolved (Some b))) N.

(** The pauses of the timers set, in order. *)
Definition pauses {num : Number} {ext : Externals} (effs : list Effect)
  : list number :=
  map snd (scheduled effs).

(** On doubles: every pause lies within [lo, hi]. *)
Definition all_within (lo hi : float) (ps : list float) : bool :=
  forallb (fun p => PrimFloat.leb lo p && PrimFloat.leb p hi) ps.

(** On doubles: every pause is below the one before, or both are [lo]. *)
Fixpoint falls_to (lo : float) (ps : list float) : bool :=
  match ps with
  | p :: (q :: _) as rest =>
      (PrimFloat.ltb q p || (PrimFloat.eqb p lo && PrimFloat.eqb q lo))
      && falls_to lo rest
  | _ => true
  end.

(** The height stays or moves on by one. *)
Definition step (a b : Z) : Prop := b = a \/ b = a + 1.

(** The height after the answer [o] to the request for [bn], as the
    invariant on heights has it: one more after a found block whose scan
    completes, the same after anything else. *)
Definition advance {ext : Externals} (bn : Z) (o : Settled (option Block)) : Z :=
  match o with
  | Resolved (Some b) => if scans b then bn + 1 else bn
  | _ => bn
  end.

(** The heights requested after the first, as that invariant has them: one
    per answer, each the height the answer before it left, for as long as the
    monitor runs. *)
Fixpoint polled {ext : Externals} (running : bool) (bn : Z)
  (evs : list (Event (option Block))) : list Z :=
  match evs with
  | [] => []
  | StopCalled :: rest => polled false bn rest
  | Settles o :: rest =>
      if running then advance bn o :: polled true (advance bn o) rest else []
  end.

(** On doubles: the pause lies within the two limits. *)
Definition within_limits {env : ProcessEnv} (p : float) : bool :=
  PrimFloat.leb (BLOCK_PAUSE_LOWER_LIMIT (num := Double)) p
  && PrimFloat.leb p (BLOCK_PAUSE_UPPER_LIMIT (num := Double)).

(** The pause after one miss, and after one found block. *)
Definition grow {num : Number} {env : ProcessEnv} (p : number) : number :=
  Math_min (mul p BLOCK_PAUSE_FACTOR) BLOCK_PAUSE_UPPER_LIMIT.

Definition shrink {num : Number} {env : ProcessEnv} (p : number) : number :=
  Math_max (div p BLOCK_PAUSE_FACTOR) BLOCK_PAUSE_LOWER_LIMIT.

(** ** Sample data *)

Module Sample.

(** No variable set: every tunable takes its default. *)
Definition default_env : ProcessEnv :=
  {| env_BLOCK_PAUSE_FACTOR := None;
     env_BLOCK_PAUSE_UPPER_LIMIT := None;
     env_BLOCK_PAUSE_LOWER_LIMIT := None;
     env_GET_BYTECODE_RETRY_PAUSE := None;
     env_GET_BLOCK_PAUSE := None;
     env_INITIAL_GET_BYTECODE_TRIES := None;
     env_MONITOR_START := fun _ => None |}.



(** [BLOCK_PAUSE_FACTOR], [BLOCK_PAUSE_UPPER_LIMIT] and [GET_BLOCK_PAUSE] each
    set to a one followed by 400 zeros, which [parseInt] reads as a number
    beyond the doubles, [Infinity]; the rest default. *)
Definition boundless_env : ProcessEnv :=
  {| env_BLOCK_PAUSE_FACTOR := Some (10 ^ 400);
     env_BLOCK_PAUSE_UPPER_LIMIT := Some (10 ^ 400);
     env_BLOCK_PAUSE_LOWER_LIMIT := None;
     env_GET_BYTECODE_RETRY_PAUSE := None;
     env_GET_BLOCK_PAUSE := Some (10 ^ 400);
     env_INITIAL_GET_BYTECODE_TRIES := None;
     env_MONITOR_START := fun _ => None |}.


Definition hex_digit (c : ascii) : option Z :=
  let n := Z.of_nat (nat_of_ascii c) in
  if (48 <=? n) && (n <=? 57) then Some (n - 48)
  else if (97 <=? n) && (n <=? 102) then Some (n - 87)
  else if (65 <=? n) && (n <=? 70) then Some (n - 55)
  else None.

Fixpoint hex_bytes (cs : list ascii) : option (list Z) :=
  match cs with
  | [] => Some []
  | [c] => option_map (fun d => [d]) (hex_digit c)
  | c1 :: c2 :: rest =>
      match hex_digit c1, hex_digit c2, hex_bytes rest with
      | Some d1, Some d2, Some bs => Some (16 * d1 + d2 :: bs)
      | _, _, _ => None
      end
  end.

(** Stand-ins for the collaborators.  The address derivation throws on a
    missing sender, as the ethers function does, and otherwise pairs sender
    and nonce; decoding fails on code that does not end in the byte 51 (0x33). *)
Definition externals : Externals :=
  {| CborData := list Z;
     SourceAddress := string;
     Contract := string;
     contract_name := fun c => c;
     getContractAddress := fun from nonce =>
       if String.eqb from "" then Throw "missing from address"
       else Normal (from ++ "/" ++ NilZero.string_of_int (Z.to_int nonce))%string;
     hexToBytes := fun hex =>
       if String.prefix "0x" hex
       then match hex_bytes (list_ascii_of_string (substring 2 (String.length hex - 2) hex)) with
            | Some bytes => Normal bytes
            | None => Throw "Given value is not a valid hex string."
            end
       else Throw "Given value is not a valid hex string.";
     cborDecode := fun bytes =>
       match rev bytes with
       | 51 :: _ => Normal bytes
       | _ => Throw "Unexpected end of CBOR data"
       end;
     fromCborData := fun data => Normal "ipfs" |}.

Definition monitor0 {num : Number} : ChainMonitor :=
  set_running true (new_ChainMonitor (env := default_env) "1").

Definition transfer : Transaction :=
  {| tx_hash := "0xa1"; tx_from := "0xf1"; tx_to := Some "0xf2"; tx_nonce := 4 |}.

Definition creation : Transaction :=
  {| tx_hash := "0xa2"; tx_from := "0xf1"; tx_to := None; tx_nonce := 5 |}.

Definition creation' : Transaction :=
  {| tx_hash := "0xa3"; tx_from := "0xf3"; tx_to := Some ""; tx_nonce := 0 |}.

(** A creation whose sender is missing: the derivation throws on it. *)
Definition broken : Transaction :=
  {| tx_hash := "0xa4"; tx_from := ""; tx_to := None; tx_nonce := 7 |}.

Definition block100 : Block :=
  {| block_number := 100; transactions := [transfer; creation; creation'] |}.

Definition block101 : Block :=
  {| block_number := 101; transactions := [creation; broken; creation'] |}.

End Sample.

(** ** The pauses under the default tunables

    With no variable set the factor is 1.1, the limits are 500 ms and
    30000 ms and the pause starts at 10000 ms.  The pauses that misses and
    found blocks can then produce are finitely many doubles; they are
    collected here by search. *)

(** The environment gives the four numbers of the block pause the values
    they have when no variable is set (its variables are unset, not numbers,
    [0], or the defaults themselves). *)
Definition default_tunables (env : ProcessEnv) : Prop :=
  BLOCK_PAUSE_FACTOR (num := Double) (env := env)
  = BLOCK_PAUSE_FACTOR (env := Sample.default_env) /\
  BLOCK_PAUSE_UPPER_LIMIT (num := Double) (env := env)
  = BLOCK_PAUSE_UPPER_LIMIT (env := Sample.default_env) /\
  BLOCK_PAUSE_LOWER_LIMIT (num := Double) (env := env)
  = BLOCK_PAUSE_LOWER_LIMIT (env := Sample.default_env) /\
  getBlockPause (new_ChainMonitor (num := Double) (env := env) "")
  = getBlockPause (new_ChainMonitor (env := Sample.default_env) "").

(** Membership of a double in a list, by identity of doubles. *)
Definition double_mem (x : float) (l : list float) : bool :=
  existsb (PrimFloat.Leibniz.eqb x) l.

(** The doubles reached from [frontier] by [up] and [down], added to [seen]
    round by round until a round brings nothing new. *)
Fixpoint closure (up down : float -> float) (fuel : nat) (seen frontier : list float)
  : list float :=
  match fuel with
  | O => seen
  | S fuel' =>
      let fresh :=
        fold_left
          (fun acc p =>
             let acc := if double_mem (up p) (acc ++ seen) then acc else up p :: acc in
             if double_mem (down p) (acc ++ seen) then acc else down p :: acc)
          frontier [] in
      match fresh with
      | [] => seen
      | _ => closure up down fuel' (fresh ++ seen) fresh
      end
  end.

Definition default_pauses : list float :=
  let p0 := getBlockPause (new_ChainMonitor (num := Double) (env := Sample.default_env) "")
  in closure (grow (num := Double) (env := Sample.default_env))
       (shrink (num := Double) (env := Sample.default_env)) 100 [p0] [p0].

(** The monitor is in a state that the callbacks can bring about from the
    constructor. *)
Definition reachable {num : Number} {env : ProcessEnv} {ext : Externals}
  (m : ChainMonitor) : Prop :=
  exists (chain : string) (ts : list Task), m = snd (run_tasks ts (new_ChainMonitor chain)).

(** ** The supervisor

    [Monitor] holds one [ChainMonitor] per chain that [getMonitoredChains]
    (outside the file) returns.  Its [stop] calls [stop] on each and stops the
    source fetcher; its [start] calls [start] on each, which is the task
    [CallStart] of that chain's monitor.  A chain is given by the fields the
    constructor reads. *)

Record Chain := {
  chain_name : string;
  chain_chainId : Z;
  chain_web3 : list string
}.

(** [chainId.toString()] *)
Definition toString (z : Z) : string := NilZero.string_of_int (Z.to_int z).

(** What the supervisor makes happen: a call recorded by the monitor of a
    chain, or its own call of [sourceFetcher.stop()]. *)
Inductive SupervisorCall {num : Number} {ext : Externals} :=
| OfChain (chain : string) (e : Effect)
| SourceFetcherStop.

Section Supervisor.
Context {num : Number} {env : ProcessEnv} {ext : Externals}.

Record Monitor := {
  chainMonitors : list ChainMonitor
}.

Definition new_Monitor (chains : list Chain) : Monitor :=
  {| chainMonitors :=
       map (fun chain => new_ChainMonitor (toString (chain_chainId chain))) chains |}.

(** [chainMonitors.forEach(cm => f(cm))]: each monitor is updated in place
    and its calls are recorded under its chain. *)
Fixpoint forEach (f : ChainMonitor -> M ChainMonitor unit) (cms : list ChainMonitor)
  : list ChainMonitor * list SupervisorCall :=
  match cms with
  | [] => ([], [])
  | cm :: rest =>
      let '(_, cm', e) := f cm cm in
      let '(rest', es) := forEach f rest in
      (cm' :: rest', map (OfChain (chainId cm)) e ++ es)
  end.

Definition Monitor_stop (mon : Monitor) : Monitor * list SupervisorCall :=
  let '(cms, es) := forEach (fun _ => stop) (chainMonitors mon) in
  ({| chainMonitors := cms |}, es ++ [SourceFetcherStop]).

End Supervisor.

(** ** More vocabulary *)

(** The candidates handed to the source fetcher, with their code. *)
Definition handoffs {num : Number} {ext : Externals} (effs : list Effect)
  : list (string * string) :=
  flat_map (fun e => match e with Assemble _ a b => [(a, b)] | _ => [] end) effs.

(** The event is an answer of the provider. *)
Definition settles {A : Type} (ev : Event A) : bool :=
  match ev with
  | Settles _ => true
  | StopCalled => false
  end.

(** The task is neither a public method nor a settled block request. *)
Definition beside_poller {num : Number} {ext : Externals} (t : Task) : bool :=
  match t with
  | CallStart | CallStop | BlockSettled _ _ => false
  | _ => true
  end.

(** The first [n] requests of a candidate that starts with [r] retries: the
    counter each continuation holds goes down by one. *)
Definition countdown (a : string) (r : Z) (n : nat) : list (string * Z) :=
  map (fun k => (a, r - 1 - Z.of_nat k)) (seq 0 n).

(** The transactions the scan gets through: those before the first creation
    on which the address derivation throws. *)
Fixpoint scanned {ext : Externals} (txs : list Transaction) : list Transaction :=
  match txs with
  | [] => []
  | tx :: rest => if derives tx then tx :: scanned rest else []
  end.

Module SampleChains.

Definition mainnet : Chain :=
  {| chain_name := "Ethereum Mainnet"; chain_chainId := 1;
     chain_web3 := ["https://mainnet.example"] |}.

Definition goerli : Chain :=
  {| chain_name := "Goerli"; chain_chainId := 5;
     chain_web3 := ["https://goerli.example"] |}.

End SampleChains.

(** * Properties *)

(** ** What one settled request does *)

Section Steps.
Context {num : Number} {env : ProcessEnv} {ext : Externals}.

Lemma set_getBlockPause_twice (p q : number) (m : ChainMonitor) :
  set_getBlockPause p (set_getBlockPause q m) = set_getBlockPause p m.
Proof. reflexivity. Qed.

Lemma processBlock_miss (m : ChainMonitor) (bn : Z) :
  processBlock_settled (Resolved None) {| this := m; blockNumber := bn |} =
  (Normal tt, {| this := grown m; blockNumber := bn |},
   Log Info "[PROCESS_BLOCK]" (LogBlockWait bn (getBlockPause (grown m)))
     "Waiting for new blocks"
   :: timer m (ProcessBlock bn) (getBlockPause (grown m))).
Proof.
  unfold processBlock_settled, finally, try_catch, getBlock_then, getBlock_finally,
    on_this, zoom, mySetTimeout, bind, modify, get, emit, ret, timer; cbn.
  destruct (running m); reflexivity.
Qed.

Lemma processBlock_error (m : ChainMonitor) (bn : Z) (err : Error) :
  processBlock_settled (Rejected err) {| this := m; blockNumber := bn |} =
  (Normal tt, {| this := m; blockNumber := bn |},
   Log Err "[PROCESS_BLOCK:FAILED]" (LogBlock bn) err
   :: timer m (ProcessBlock bn) (getBlockPause m)).
Proof.
  unfold processBlock_settled, finally, try_catch, getBlock_catch, getBlock_finally,
    on_this, zoom, mySetTimeout, bind, throw, get, emit, ret, timer; cbn.
  destruct (running m); reflexivity.
Qed.

(** Scanning a transaction leaves the frame as it was; it sets no timer and
    asks for no block. *)
Lemma scan_transaction_inert (tx : Transaction) (fr : BlockFrame) :
  exists c e, scan_transaction tx fr = (c, fr, e) /\
              scheduled e = [] /\ block_requests e = [].
Proof.
  unfold scan_transaction, processBytecode, on_this, zoom, lift, bind, get, emit, ret.
  destruct (createsContract tx); [|eauto].
  destruct (getContractAddress (tx_from tx) (tx_nonce tx)); cbn; [|eauto].
  destruct fr as [m bn]; cbn.
  destruct (initialGetBytecodeTries m <=? 0); cbn; eauto.
Qed.

Lemma scan_inert (txs : list Transaction) (fr : BlockFrame) :
  exists c e, for_of txs scan_transaction fr = (c, fr, e) /\
              scheduled e = [] /\ block_requests e = [].
Proof.
  induction txs as [|tx txs IH]; cbn.
  - unfold ret; eauto.
  - unfold bind.
    destruct (scan_transaction_inert tx fr) as (c & e & -> & Hs & Hb).
    destruct c as [[]|err]; [|eauto].
    destruct IH as (c' & e' & -> & Hs' & Hb').
    exists c', (e ++ e'). unfold scheduled, block_requests in *.
    rewrite !flat_map_app, Hs, Hs', Hb, Hb'. auto.
Qed.

(** A found block: the pause shrinks, the transactions are scanned, and
    either the scan completes and the height moves on, or it throws and the
    height stays. *)
Lemma processBlock_found (b : Block) (m : ChainMonitor) (bn : Z) :
  exists c e,
    for_of (transactions b) scan_transaction {| this := shrunk m; blockNumber := bn |}
    = (c, {| this := shrunk m; blockNumber := bn |}, e) /\
    scheduled e = [] /\ block_requests e = [] /\
    processBlock_settled (Resolved (Some b)) {| this := m; blockNumber := bn |} =
    match c with
    | Normal _ =>
        (Normal tt, {| this := shrunk m; blockNumber := bn + 1 |},
         e ++ timer m (ProcessBlock (bn + 1)) (getBlockPause (shrunk m)))
    | Throw err =>
        (Normal tt, {| this := shrunk m; blockNumber := bn |},
         e ++ Log Err "[PROCESS_BLOCK:FAILED]" (LogBlock bn) err
           :: timer m (ProcessBlock bn) (getBlockPause (shrunk m)))
    end.
Proof.
  destruct (scan_inert (transactions b) {| this := shrunk m; blockNumber := bn |})
    as (c & e & Hscan & Hs & Hb).
  exists c, e. repeat split; auto.
  unfold processBlock_settled, finally, try_catch, getBlock_then, getBlock_catch,
    getBlock_finally, on_this, zoom, mySetTimeout, bind, modify, get, emit, ret, timer;
    cbn.
  rewrite set_getBlockPause_twice. fold (shrunk m). rewrite Hscan.
  destruct c as [[]|err]; cbn; destruct (running m); cbn;
    rewrite <- ?app_assoc, ?app_nil_r; reflexivity.
Qed.

(** The scan of transactions that all derive: one call of [processBytecode]
    per creation, in order. *)
Lemma scan_completes (txs : list Transaction) (fr : BlockFrame) :
  forallb derives txs = true ->
  for_of txs scan_transaction fr
  = (Normal tt, fr, dispatched (this fr) (candidates txs)) /\
  Forall2 derived (filter createsContract txs) (candidates txs).
Proof.
  induction txs as [|tx txs IH]; cbn [forallb filter]; intros Hd.
  - split; [reflexivity|constructor].
  - apply andb_true_iff in Hd as [Htx Htxs].
    destruct (IH Htxs) as (Hrun & Hall).
    unfold derives in Htx. unfold derived.
    change (for_of (tx :: txs) scan_transaction fr)
      with ((scan_transaction tx;; for_of txs scan_transaction) fr).
    cbv beta delta [bind]. unfold scan_transaction at 1.
    unfold candidates at 1 2. cbn [flat_map]. fold (candidates txs).
    destruct (createsContract tx).
    + destruct (getContractAddress (tx_from tx) (tx_nonce tx)) as [a|err] eqn:Ha;
        [|discriminate].
      split; [|constructor; assumption].
      unfold bind, lift, get, on_this, zoom, processBytecode, emit, ret; cbn.
      destruct fr as [m bn]; cbn in *.
      unfold dispatched in *; cbn in *.
      destruct (initialGetBytecodeTries m <=? 0); cbn; rewrite Hrun; reflexivity.
    + split; [|assumption].
      unfold ret; cbn. rewrite Hrun. reflexivity.
Qed.

Lemma for_of_app {S A} (xs ys : list A) (body : A -> M S unit) (s : S) :
  for_of (xs ++ ys) body s = (for_of xs body;; for_of ys body) s.
Proof.
  revert s. induction xs as [|x xs IH]; intros s; cbn.
  - unfold bind, ret; cbn. destruct (for_of ys body s) as [[c s'] e]. reflexivity.
  - unfold bind in *. destruct (body x s) as [[[[]|err] s1] e1]; [|reflexivity].
    rewrite IH. destruct (for_of xs body s1) as [[[[]|err] s2] e2]; [|reflexivity].
    destruct (for_of ys body s2) as [[c s3] e3]. rewrite app_assoc. reflexivity.
Qed.

(** The scan up to the first creation on which the derivation throws. *)
Lemma scan_throws (pre post : list Transaction) (bad : Transaction) (err : Error)
  (fr : BlockFrame) :
  forallb derives pre = true ->
  createsContract bad = true ->
  getContractAddress (tx_from bad) (tx_nonce bad) = Throw err ->
  for_of (pre ++ bad :: post) scan_transaction fr
  = (Throw err, fr, dispatched (this fr) (candidates pre)).
Proof.
  intros Hpre Hbad Herr.
  destruct (scan_completes pre fr Hpre) as (Hrun & _).
  rewrite for_of_app. unfold bind. rewrite Hrun. cbn.
  unfold bind, scan_transaction. rewrite Hbad, Herr.
  unfold lift; cbn. rewrite app_nil_r. reflexivity.
Qed.

(** The scan completes exactly when every creation derives. *)
Lemma scan_normal_iff (txs : list Transaction) (fr : BlockFrame) :
  fst (fst (for_of txs scan_transaction fr)) = Normal tt <->
  forallb derives txs = true.
Proof.
  split.
  - revert fr. induction txs as [|tx txs IH]; cbn; intros fr Hn; [reflexivity|].
    unfold bind in Hn.
    destruct (scan_transaction_inert tx fr) as (c & e & Htx & _).
    rewrite Htx in Hn. apply andb_true_iff.
    destruct c as [[]|err]; [|discriminate].
    split.
    + unfold scan_transaction, derives, bind, lift in *.
      destruct (createsContract tx); [|reflexivity].
      destruct (getContractAddress (tx_from tx) (tx_nonce tx)); [reflexivity|].
      discriminate.
    + apply (IH fr).
      destruct (for_of txs scan_transaction fr) as [[c' s'] e']. exact Hn.
  - intros Hd. destruct (scan_completes txs fr Hd) as (-> & _). reflexivity.
Qed.

Lemma scheduled_app (e1 e2 : list Effect) :
  scheduled (e1 ++ e2) = scheduled e1 ++ scheduled e2.
Proof. apply flat_map_app. Qed.

Lemma block_requests_app (e1 e2 : list Effect) :
  block_requests (e1 ++ e2) = block_requests e1 ++ block_requests e2.
Proof. apply flat_map_app. Qed.

Lemma code_requests_app (e1 e2 : list Effect) :
  code_requests (e1 ++ e2) = code_requests e1 ++ code_requests e2.
Proof. apply flat_map_app. Qed.

Lemma scheduled_log lvl loc obj msg (e : list Effect) :
  scheduled (Log lvl loc obj msg :: e) = scheduled e.
Proof. reflexivity. Qed.

Lemma block_requests_log lvl loc obj msg (e : list Effect) :
  block_requests (Log lvl loc obj msg :: e) = block_requests e.
Proof. reflexivity. Qed.

Lemma scheduled_timer (m : ChainMonitor) (h : Handler) (t : number) :
  scheduled (timer m h t) = if running m then [(h, t)] else [].
Proof. unfold timer. destruct (running m); reflexivity. Qed.

Lemma block_requests_timer (m : ChainMonitor) (h : Handler) (t : number) :
  block_requests (timer m h t) = [].
Proof. unfold timer. destruct (running m); reflexivity. Qed.

(** Whatever the request settled with: the callbacks end normally, the height
    stays or moves on by one, and the one timer set, if the monitor runs, is
    for the height and the pause they leave behind. *)
Lemma processBlock_step (o : Settled (option Block)) (m : ChainMonitor) (bn : Z) :
  exists fr' e,
    processBlock_settled o {| this := m; blockNumber := bn |} = (Normal tt, fr', e) /\
    (blockNumber fr' = bn \/ blockNumber fr' = bn + 1) /\
    running (this fr') = running m /\
    block_requests e = [] /\
    scheduled e =
      if running m then [(ProcessBlock (blockNumber fr'), getBlockPause (this fr'))]
      else [].
Proof.
  destruct o as [[b|]|err].
  - destruct (processBlock_found b m bn) as (c & e & _ & Hs & Hb & ->).
    destruct c as [[]|err]; eexists _, _; (split; [reflexivity|]);
      cbn [this blockNumber];
      rewrite ?scheduled_app, ?block_requests_app, ?scheduled_log, ?block_requests_log,
        ?scheduled_timer, ?block_requests_timer, Hs, Hb; auto.
  - rewrite processBlock_miss. eexists _, _; (split; [reflexivity|]);
      cbn [this blockNumber];
      rewrite ?scheduled_log, ?block_requests_log,
        ?scheduled_timer, ?block_requests_timer; auto.
  - rewrite processBlock_error. eexists _, _; (split; [reflexivity|]);
      cbn [this blockNumber];
      rewrite ?scheduled_log, ?block_requests_log,
        ?scheduled_timer, ?block_requests_timer; auto.
Qed.

End Steps.

(** ** The block loop *)

Section Poller.
Context {num : Number} {env : ProcessEnv} {ext : Externals}.

Lemma await_block_stepwise (evs : list (Event (option Block))) :
  forall m bn, stepwise step (bn :: block_requests (fst (await_block evs m bn))).
Proof.
  induction evs as [|[o|] evs IH]; intros m bn; cbn [await_block].
  - exact I.
  - destruct (processBlock_step o m bn) as (fr' & e & -> & Hbn & Hrun & Hb & Hs).
    rewrite Hs. destruct (running m); cbn [next_block].
    + unfold processBlock, emit.
      specialize (IH (this fr') (blockNumber fr')).
      destruct (await_block evs (this fr') (blockNumber fr')) as [e' m'].
      cbn [fst] in *. rewrite !block_requests_app, Hb. cbn.
      split; [exact Hbn|exact IH].
    + cbn [fst]. rewrite Hb. exact I.
  - unfold stop, modify.
    specialize (IH (set_running false m) bn).
    destruct (await_block evs (set_running false m) bn) as [e' m']. exact IH.
Qed.

Lemma stepwise_sorted (l : list Z) : stepwise step l -> StronglySorted Z.le l.
Proof.
  intros Hl. apply Sorted_StronglySorted; [intros x y z; apply Z.le_trans|].
  induction l as [|a l IH]; [constructor|].
  destruct l as [|b l]; [repeat constructor|].
  destruct Hl as [Hab Hl].
  constructor; [apply IH, Hl|].
  constructor. destruct Hab; lia.
Qed.

End Poller.

Section Height.
Context {num : Number} {env : ProcessEnv} {ext : Externals}.

Lemma processBlock_height (o : Settled (option Block)) (m : ChainMonitor) (bn : Z) :
  blockNumber (snd (fst (processBlock_settled o {| this := m; blockNumber := bn |}))) =
  match o with
  | Resolved (Some b) => if scans b then bn + 1 else bn
  | _ => bn
  end.
Proof.
  destruct o as [[b|]|err].
  - destruct (processBlock_found b m bn) as (c & e & Hscan & _ & _ & ->).
    pose proof (scan_normal_iff (transactions b) {| this := shrunk m; blockNumber := bn |})
      as Hiff.
    rewrite Hscan in Hiff. cbn [fst] in Hiff. unfold scans.
    destruct c as [[]|err].
    + rewrite (proj1 Hiff eq_refl). reflexivity.
    + destruct (forallb derives (transactions b)); [|reflexivity].
      destruct Hiff as [_ Hiff]. discriminate (Hiff eq_refl).
  - rewrite processBlock_miss. reflexivity.
  - rewrite processBlock_error. reflexivity.
Qed.

(** The loop asks for the heights the invariant gives. *)
Lemma await_block_polled (evs : list (Event (option Block))) :
  forall (m : ChainMonitor) (bn : Z),
    block_requests (fst (await_block evs m bn)) = polled (running m) bn evs.
Proof.
  induction evs as [|[o|] evs IH]; intros m bn; cbn [await_block polled].
  - reflexivity.
  - pose proof (processBlock_height o m bn) as Hh.
    destruct (processBlock_step o m bn) as (fr' & e & Heq & _ & Hrun & Hb & Hs).
    rewrite Heq in Hh |- *. cbn [fst snd] in Hh. rewrite Hs.
    destruct (running m) eqn:Hr; cbn [next_block].
    + unfold processBlock, emit.
      specialize (IH (this fr') (blockNumber fr')). rewrite Hrun in IH.
      destruct (await_block evs (this fr') (blockNumber fr')) as [e' m'].
      cbn [fst] in *. rewrite !block_requests_app, Hb, IH. unfold advance.
      rewrite Hh. reflexivity.
    + cbn [fst]. exact Hb.
  - unfold stop, modify.
    specialize (IH (set_running false m) bn).
    destruct (await_block evs (set_running false m) bn) as [e' m']. exact IH.
Qed.

(** The same when the timers elapse in their own time and [stop] may fall
    before a timer elapses: the heights asked for after a request for [bn]
    go on from [bn] stepwise, and a pending timer for [bn] asks for [bn]. *)
Lemma poll_loop_stepwise (pevs : list PollEvent) :
  forall (m : ChainMonitor) (st : PollState),
    let hs := block_requests (fst (fst (poll_loop pevs m st))) in
    match st with
    | Requested bn => stepwise step (bn :: hs)
    | Waiting bn => hs = [] \/ exists rest, hs = bn :: rest /\ stepwise step (bn :: rest)
    | Ended => hs = []
    end.
Proof.
  induction pevs as [|[o| |] pevs IH]; intros m st; cbv zeta; cbn [poll_loop].
  - destruct st; cbn; auto.
  - destruct st as [bn|bn|];
      [|exact (IH m (Waiting bn))|exact (IH m Ended)].
    destruct (processBlock_step o m bn) as (fr' & e & -> & Hbn & _ & Hb & Hs).
    rewrite Hs.
    destruct (running m); cbn [next_block].
    + specialize (IH (this fr') (Waiting (blockNumber fr'))). cbv zeta in IH.
      destruct (poll_loop pevs (this fr') (Waiting (blockNumber fr'))) as [[e' m'] st'].
      cbn [fst] in *. rewrite block_requests_app, Hb. cbn [app].
      destruct IH as [-> |(rest & -> & Hrest)]; [exact I|].
      split; [destruct Hbn as [-> | ->]; [left|right]; reflexivity|exact Hrest].
    + specialize (IH (this fr') Ended). cbv zeta in IH.
      destruct (poll_loop pevs (this fr') Ended) as [[e' m'] st'].
      cbn [fst] in *. rewrite block_requests_app, Hb, IH. exact I.
  - destruct st as [bn|bn|];
      [exact (IH m (Requested bn))| |exact (IH m Ended)].
    unfold processBlock, emit.
    specialize (IH m (Requested bn)). cbv zeta in IH.
    destruct (poll_loop pevs m (Requested bn)) as [[e' m'] st'].
    cbn [fst] in *. right. eexists. split; [reflexivity|exact IH].
  - unfold stop, modify.
    specialize (IH (set_running false m) st). cbv zeta in IH.
    destruct (poll_loop pevs (set_running false m) st) as [[e' m'] st'].
    exact IH.
Qed.

(** C1 (amended).  The heights a monitor asks the provider for are the start
    height and then, for each answer received while it runs, the height that
    answer leaves: one more than the height asked for when the answer is a
    found block whose transaction scan completes, and the same height on a
    miss, on a provider error and on a found block whose scan throws.  So
    each height asked for is the one before or its successor: the height is
    never decremented, no height is skipped, and none comes back once a
    higher one was asked for; this also holds when the timers elapse in
    their own time, with [stop] called at any moment.  The timer an answer
    sets is for the height it leaves. *)
Theorem C1_height_advances (evs : list (Event (option Block)))
  (pevs : list PollEvent) (m : ChainMonitor) (bn : Z) :
  let hs := block_requests (fst (poller evs m bn)) in
  hs = bn :: polled (running m) bn evs /\
  stepwise step hs /\
  StronglySorted Z.le hs /\
  StronglySorted Z.le
    (bn :: block_requests (fst (fst (poll_loop pevs m (Requested bn))))) /\
  forall o,
    let r := processBlock_settled o {| this := m; blockNumber := bn |} in
    blockNumber (snd (fst r)) = advance bn o /\
    step bn (advance bn o) /\
    scheduled (snd r) =
      if running m
      then [(ProcessBlock (advance bn o), getBlockPause (this (snd (fst r))))]
      else [].
Proof.
  assert (Hhs : block_requests (fst (poller evs m bn)) =
                bn :: block_requests (fst (await_block evs m bn))).
  { unfold poller, processBlock, emit.
    destruct (await_block evs m bn) as [e m']. reflexivity. }
  cbv zeta. rewrite Hhs.
  pose proof (await_block_stepwise evs m bn) as Hstep.
  split; [rewrite await_block_polled; reflexivity|].
  split; [exact Hstep|]. split; [apply stepwise_sorted, Hstep|].
  split; [apply stepwise_sorted, (poll_loop_stepwise pevs m (Requested bn))|].
  intros o. pose proof (processBlock_height o m bn) as Hh.
  destruct (processBlock_step o m bn) as (fr' & e & Heq & _ & _ & _ & Hs).
  rewrite Heq in Hh |- *. cbn [fst snd] in *.
  fold (advance bn o) in Hh. rewrite Hs, Hh.
  split; [reflexivity|]. split; [|reflexivity].
  unfold step, advance. destruct o as [[b|]|err]; auto.
  destruct (scans b); auto.
Qed.

End Height.

(** ** The bytecode retriever *)

Section Retriever.
Context {num : Number} {ext : Externals}.

Lemma processBytecode_run (a : string) (r : Z) (m : ChainMonitor) :
  processBytecode a r m =
  (Normal tt, m, if r <=? 0 then [] else [GetCode a (r - 1)]).
Proof. unfold processBytecode. destruct (r <=? 0); reflexivity. Qed.

(** Empty code or a failed fetch: one log entry, and the same address with
    the counter the continuation holds goes back on a timer. *)
Lemma processBytecode_settled_fail (a : string) (r : Z) (o : Settled string)
  (m : ChainMonitor) :
  non_success o = true ->
  exists lvl loc msg,
    processBytecode_settled a r o m =
    (Normal tt, m,
     Log lvl loc (LogBytecode a r) msg
     :: timer m (ProcessBytecode a r) (getBytecodeRetryPause m)).
Proof.
  intros Ho. unfold processBytecode_settled, try_catch, getCode_then, getCode_catch,
    mySetTimeout, bind, throw, get, emit, ret, timer.
  destruct o as [bytecode|err]; cbn in Ho |- *.
  - rewrite Ho. destruct (running m); cbn; eauto.
  - destruct (running m); cbn; eauto.
Qed.

Lemma processBytecode_settled_code (a : string) (r : Z) (bytecode : string)
  (bytes : list Z) (m : ChainMonitor) :
  String.eqb bytecode "0x" = false ->
  hexToBytes bytecode = Normal bytes ->
  processBytecode_settled a r (Resolved bytecode) m =
  (Normal tt, m, extraction a bytecode bytes).
Proof.
  intros Hne Hhex.
  unfold processBytecode_settled, try_catch, getCode_then, bind, lift, emit, extraction.
  rewrite Hne, Hhex.
  destruct (cborDecode bytes) as [data|err]; cbn; [|reflexivity].
  destruct (fromCborData data) as [meta|err]; reflexivity.
Qed.

Lemma extraction_inert (a bytecode : string) (bytes : list Z) :
  scheduled (extraction a bytecode bytes) = [] /\
  code_requests (extraction a bytecode bytes) = [] /\
  block_requests (extraction a bytecode bytes) = [].
Proof.
  unfold extraction.
  destruct (cborDecode bytes) as [data|err]; [|repeat split].
  destruct (fromCborData data); repeat split.
Qed.

(** Whatever the request settled with: the callbacks end normally, leave the
    monitor as it was, ask the provider for nothing, and set at most the
    timer for the same address and counter. *)
Lemma processBytecode_settled_shape (a : string) (r : Z) (o : Settled string)
  (m : ChainMonitor) :
  exists e,
    processBytecode_settled a r o m = (Normal tt, m, e) /\
    code_requests e = [] /\ block_requests e = [] /\
    (scheduled e = [] \/
     running m = true /\ scheduled e = [(ProcessBytecode a r, getBytecodeRetryPause m)]).
Proof.
  assert (Hfail : forall lvl loc msg,
    let e := Log lvl loc (LogBytecode a r) msg
             :: timer m (ProcessBytecode a r) (getBytecodeRetryPause m) in
    code_requests e = [] /\ block_requests e = [] /\
    (scheduled e = [] \/
     running m = true /\
     scheduled e = [(ProcessBytecode a r, getBytecodeRetryPause m)])).
  { intros lvl loc msg. unfold timer. destruct (running m); cbn; auto. }
  destruct (non_success o) eqn:Ho.
  - destruct (processBytecode_settled_fail a r o m Ho) as (lvl & loc & msg & ->).
    eexists. split; [reflexivity|]. apply Hfail.
  - destruct o as [bytecode|err]; [|discriminate]. cbn in Ho.
    destruct (hexToBytes bytecode) as [bytes|err] eqn:Hhex.
    + rewrite (processBytecode_settled_code a r bytecode bytes m Ho Hhex).
      eexists. split; [reflexivity|].
      destruct (extraction_inert a bytecode bytes) as (Hs & Hc & Hb). auto.
    + unfold processBytecode_settled, try_catch, getCode_then, getCode_catch,
        mySetTimeout, bind, lift, get, emit, ret.
      rewrite Ho, Hhex. cbn.
      destruct (running m) eqn:Hrun; cbn; eexists; (split; [reflexivity|]).
      * pose proof (Hfail Err "[GET_BYTECODE]" err) as H. unfold timer in H.
        rewrite Hrun in H. exact H.
      * auto.
Qed.

Lemma await_code_bound (evs : list (Event string)) :
  forall (m : ChainMonitor) (a : string) (r : Z),
    (List.length (code_requests (fst (await_code evs m a r))) <= Z.to_nat r)%nat /\
    Forall (fun q => fst q = a) (code_requests (fst (await_code evs m a r))).
Proof.
  induction evs as [|[o|] evs IH]; intros m a r; cbn [await_code].
  - split; [apply Nat.le_0_l|constructor].
  - destruct (processBytecode_settled_shape a r o m) as (e & -> & Hc & _ & [Hs|[_ Hs]]);
      rewrite Hs; cbn [next_bytecode fst].
    + rewrite Hc. split; [apply Nat.le_0_l|constructor].
    + rewrite processBytecode_run.
      destruct (Z.leb_spec r 0) as [Hr|Hr].
      * change (code_requests []) with (@nil (string * Z)). cbn [fst].
        rewrite app_nil_r, Hc. split; [apply Nat.le_0_l|constructor].
      * change (code_requests [GetCode a (r - 1)]) with [(a, r - 1)].
        cbv beta iota zeta.
        specialize (IH m a (r - 1)).
        destruct (await_code evs m a (r - 1)) as [e' m']. cbn [fst] in *.
        rewrite !code_requests_app, Hc. cbn.
        destruct IH as [IHl IHa]. split; [lia|].
        constructor; [reflexivity|exact IHa].
  - unfold stop, modify.
    specialize (IH (set_running false m) a r).
    destruct (await_code evs (set_running false m) a r) as [e' m']. exact IH.
Qed.

End Retriever.

Section Retries.
Context {num : Number} {ext : Externals}.

Lemma await_code_exhaust (evs : list (Event string)) :
  forall (m : ChainMonitor) (a : string) (r : Z),
    running m = true ->
    Forall failed evs ->
    List.length (code_requests (fst (await_code evs m a r))) =
    Nat.min (Z.to_nat r) (List.length evs).
Proof.
  induction evs as [|[o|] evs IH]; intros m a r Hrun Hall; cbn [await_code].
  - rewrite Nat.min_0_r. reflexivity.
  - inversion Hall as [|ev evs' Ho Hall']; subst. cbn in Ho.
    destruct (processBytecode_settled_fail a r o m Ho) as (lvl & loc & msg & ->).
    rewrite scheduled_log, scheduled_timer, Hrun. cbn [next_bytecode].
    rewrite processBytecode_run.
    destruct (Z.leb_spec r 0) as [Hr|Hr].
    + change (code_requests []) with (@nil (string * Z)). cbn [fst].
      rewrite code_requests_app. unfold timer. rewrite Hrun. cbn.
      replace (Z.to_nat r) with 0%nat by lia. reflexivity.
    + change (code_requests [GetCode a (r - 1)]) with [(a, r - 1)].
      cbv beta iota zeta.
      specialize (IH m a (r - 1) Hrun Hall').
      destruct (await_code evs m a (r - 1)) as [e' m']. cbn [fst] in *.
      rewrite !code_requests_app. unfold timer. rewrite Hrun. cbn.
      rewrite IH. replace (Z.to_nat r) with (S (Z.to_nat (r - 1))) by lia.
      reflexivity.
  - inversion Hall as [|ev evs' Ho _]; subst. destruct Ho.
Qed.

(** C4.  A candidate with [R] retries makes at most [R] fetch attempts, all
    for its own address; with [R <= 0] it makes none and does nothing at all.
    When every attempt finds no code or fails, exactly [R] attempts are made
    and no more, however many answers follow.  Each such answer sets a timer
    for the same address with the retry pause, and when it fires the next
    request is made with one retry less. *)
Theorem C4_bounded_retries (evs : list (Event string)) (m : ChainMonitor)
  (a : string) (R : Z) :
  let trace := fst (retriever evs m a R) in
  (List.length (code_requests trace) <= Z.to_nat R)%nat /\
  Forall (fun q => fst q = a) (code_requests trace) /\
  (R <= 0 -> trace = []) /\
  (running m = true -> Forall failed evs -> (Z.to_nat R <= List.length evs)%nat ->
   List.length (code_requests trace) = Z.to_nat R) /\
  (forall r o, non_success o = true -> running m = true ->
     scheduled (snd (processBytecode_settled a r o m)) =
       [(ProcessBytecode a r, getBytecodeRetryPause m)] /\
     fire (ProcessBytecode a r) m =
       (Normal tt, m, if r <=? 0 then [] else [GetCode a (r - 1)])).
Proof.
  cbv zeta.
  assert (Hstep : forall r o, non_success o = true -> running m = true ->
     scheduled (snd (processBytecode_settled a r o m)) =
       [(ProcessBytecode a r, getBytecodeRetryPause m)] /\
     fire (ProcessBytecode a r) m =
       (Normal tt, m, if r <=? 0 then [] else [GetCode a (r - 1)])).
  { intros r o Ho Hrun. split; [|apply processBytecode_run].
    destruct (processBytecode_settled_fail a r o m Ho) as (lvl & loc & msg & ->).
    cbn [snd]. rewrite scheduled_log, scheduled_timer, Hrun. reflexivity. }
  unfold retriever. rewrite processBytecode_run.
  destruct (Z.leb_spec R 0) as [HR|HR].
  - change (code_requests []) with (@nil (string * Z)). cbn [fst List.length].
    split; [apply Nat.le_0_l|]. split; [constructor|]. split; [reflexivity|].
    split; [|exact Hstep]. intros _ _ _.
    change (List.length (code_requests [])) with 0%nat. lia.
  - change (code_requests [GetCode a (R - 1)]) with [(a, R - 1)].
    cbv beta iota zeta.
    pose proof (await_code_bound evs m a (R - 1)) as [Hl Ha].
    pose proof (await_code_exhaust evs m a (R - 1)) as Hex.
    destruct (await_code evs m a (R - 1)) as [e' m']. cbn [fst] in *.
    rewrite !code_requests_app. cbn [code_requests flat_map app List.length].
    split; [lia|]. split; [constructor; [reflexivity|exact Ha]|].
    split; [lia|]. split; [|exact Hstep].
    intros Hrun Hall Hlen. rewrite (Hex Hrun Hall). lia.
Qed.

(** C6.  Code that is not empty (and is a hex string, so that its conversion
    to bytes does not throw) goes to the decoding: either the candidate is
    handed to the source fetcher, or the decoding failure is logged; in both
    cases the callbacks end normally, the monitor is as it was, no timer is
    set and no further request is made, and the retry loop of the candidate
    ends there, whatever would be answered next. *)
Theorem C6_code_found (a : string) (r : Z) (bytecode : string) (bytes : list Z)
  (rest : list (Event string)) (m : ChainMonitor) :
  bytecode <> "0x" ->
  hexToBytes bytecode = Normal bytes ->
  processBytecode_settled a r (Resolved bytecode) m =
    (Normal tt, m,
     match cborDecode bytes with
     | Normal data =>
         match fromCborData data with
         | Normal metadataAddress => [Assemble metadataAddress a bytecode]
         | Throw err => [Log Err "[GET_BYTECODE:METADATA_READING]" (LogAddress a) err]
         end
     | Throw err => [Log Err "[GET_BYTECODE:METADATA_READING]" (LogAddress a) err]
     end) /\
  scheduled (snd (processBytecode_settled a r (Resolved bytecode) m)) = [] /\
  code_requests (snd (processBytecode_settled a r (Resolved bytecode) m)) = [] /\
  await_code (Settles (Resolved bytecode) :: rest) m a r =
    (snd (processBytecode_settled a r (Resolved bytecode) m), m).
Proof.
  intros Hne Hhex.
  apply String.eqb_neq in Hne.
  pose proof (processBytecode_settled_code a r bytecode bytes m Hne Hhex) as Hrun.
  destruct (extraction_inert a bytecode bytes) as (Hs & Hc & _).
  cbn [await_code]. rewrite Hrun. cbn [snd]. rewrite Hs, Hc.
  repeat split.
Qed.

End Retries.

(** ** Creations and candidates *)

Section Creations.
Context {num : Number} {env : ProcessEnv} {ext : Externals}.

Lemma createsContract_iff (tx : Transaction) :
  createsContract tx = true <-> tx_to tx = None \/ tx_to tx = Some "".
Proof.
  unfold createsContract, truthy.
  destruct (tx_to tx) as [s|]; [|intuition].
  destruct (String.eqb_spec s ""); cbn; split; intros Hs.
  - right. congruence.
  - reflexivity.
  - discriminate.
  - destruct Hs as [Hs|Hs]; congruence.
Qed.

Lemma code_requests_dispatched (m : ChainMonitor) (addrs : list string) :
  0 < initialGetBytecodeTries m ->
  code_requests (dispatched m addrs) =
  map (fun a => (a, initialGetBytecodeTries m - 1)) addrs.
Proof.
  intros Ht. unfold dispatched, code_requests.
  destruct (Z.leb_spec (initialGetBytecodeTries m) 0) as [Hle|_]; [lia|].
  induction addrs as [|a addrs IH]; [reflexivity|].
  cbn. f_equal. exact IH.
Qed.

Lemma scheduled_dispatched (m : ChainMonitor) (addrs : list string) :
  scheduled (dispatched m addrs) = [].
Proof.
  unfold dispatched, scheduled.
  induction addrs as [|a addrs IH]; [reflexivity|].
  cbn. destruct (initialGetBytecodeTries m <=? 0); exact IH.
Qed.

Lemma processBlock_thrown (b : Block) (pre post : list Transaction)
  (bad : Transaction) (err : Error) (m : ChainMonitor) (bn : Z) :
  transactions b = pre ++ bad :: post ->
  forallb derives pre = true ->
  createsContract bad = true ->
  getContractAddress (tx_from bad) (tx_nonce bad) = Throw err ->
  processBlock_settled (Resolved (Some b)) {| this := m; blockNumber := bn |} =
  (Normal tt, {| this := shrunk m; blockNumber := bn |},
   dispatched m (candidates pre)
   ++ Log Err "[PROCESS_BLOCK:FAILED]" (LogBlock bn) err
      :: timer m (ProcessBlock bn) (getBlockPause (shrunk m))).
Proof.
  intros Htxs Hpre Hbad Herr.
  destruct (processBlock_found b m bn) as (c & e & Hscan & _ & _ & ->).
  rewrite Htxs in Hscan.
  rewrite (scan_throws pre post bad err _ Hpre Hbad Herr) in Hscan.
  injection Hscan as <- <-. reflexivity.
Qed.

(** The scan of any transactions: the creations before the first one on which
    the derivation throws are dispatched. *)
Lemma scan_any (txs : list Transaction) (fr : BlockFrame) :
  exists c,
    for_of txs scan_transaction fr
    = (c, fr, dispatched (this fr) (candidates (scanned txs))).
Proof.
  induction txs as [|tx txs [c IH]]; [exists (Normal tt); reflexivity|].
  change (for_of (tx :: txs) scan_transaction fr)
    with ((scan_transaction tx;; for_of txs scan_transaction) fr).
  cbv beta delta [bind]. unfold scan_transaction at 1.
  cbn [scanned]. unfold derives.
  destruct (createsContract tx) eqn:Hc.
  - destruct (getContractAddress (tx_from tx) (tx_nonce tx)) as [a|err] eqn:Ha.
    + unfold candidates. cbn [flat_map]. rewrite Hc, Ha. fold (candidates (scanned txs)).
      unfold bind, lift, get, on_this, zoom, processBytecode, emit, ret; cbn.
      destruct fr as [m bn]; cbn in *. unfold dispatched in *; cbn in *.
      exists c.
      destruct (initialGetBytecodeTries m <=? 0); cbn; rewrite IH; reflexivity.
    + exists (Throw err). reflexivity.
  - unfold candidates. cbn [flat_map]. rewrite Hc. fold (candidates (scanned txs)).
    exists c. unfold ret; cbn. rewrite IH. reflexivity.
Qed.

Lemma code_requests_dispatched_none (m : ChainMonitor) (addrs : list string) :
  initialGetBytecodeTries m <= 0 ->
  code_requests (dispatched m addrs) = [].
Proof.
  intros Hle. unfold dispatched, code_requests.
  apply Z.leb_le in Hle. rewrite Hle.
  induction addrs as [|a addrs IH]; [reflexivity|exact IH].
Qed.

Lemma scanned_derive (txs : list Transaction) :
  forallb derives (scanned txs) = true.
Proof.
  induction txs as [|tx txs IH]; [reflexivity|]. cbn [scanned].
  destruct (derives tx) eqn:Ht; [|reflexivity].
  cbn [forallb]. rewrite Ht. exact IH.
Qed.

(** What the scan gets through is the whole list when every creation
    derives, and otherwise stops before a creation on which the derivation
    throws. *)
Lemma scanned_split (txs : list Transaction) :
  if forallb derives txs then scanned txs = txs
  else exists bad post err,
         txs = scanned txs ++ bad :: post /\
         createsContract bad = true /\
         getContractAddress (tx_from bad) (tx_nonce bad) = Throw err.
Proof.
  induction txs as [|tx txs IH]; [reflexivity|]. cbn [forallb scanned].
  destruct (derives tx) eqn:Ht; cbn [andb].
  - destruct (forallb derives txs).
    + rewrite IH. reflexivity.
    + destruct IH as (bad & post & err & Htxs & Hbad & Herr).
      exists bad, post, err. rewrite <- app_comm_cons, <- Htxs. auto.
  - unfold derives in Ht.
    destruct (createsContract tx) eqn:Hc; [|discriminate].
    destruct (getContractAddress (tx_from tx) (tx_nonce tx)) as [a|err] eqn:Ha;
      [discriminate|].
    exists tx, txs, err. auto.
Qed.

Lemma code_requests_scanned (b : Block) (m : ChainMonitor) (bn : Z) :
  code_requests
    (snd (processBlock_settled (Resolved (Some b)) {| this := m; blockNumber := bn |}))
  = if initialGetBytecodeTries m <=? 0 then []
    else map (fun a => (a, initialGetBytecodeTries m - 1))
           (candidates (scanned (transactions b))).
Proof.
  destruct (processBlock_found b m bn) as (c & e & Hscan & _ & _ & ->).
  destruct (scan_any (transactions b) {| this := shrunk m; blockNumber := bn |})
    as (c' & Hany).
  rewrite Hscan in Hany. injection Hany as _ ->.
  assert (Hreq : code_requests (dispatched m (candidates (scanned (transactions b))))
                 = if initialGetBytecodeTries m <=? 0 then []
                   else map (fun a => (a, initialGetBytecodeTries m - 1))
                          (candidates (scanned (transactions b)))).
  { destruct (Z.leb_spec (initialGetBytecodeTries m) 0) as [Hle|Hlt].
    - apply code_requests_dispatched_none. exact Hle.
    - apply code_requests_dispatched. exact Hlt. }
  change (dispatched (shrunk m) (candidates (scanned (transactions b))))
    with (dispatched m (candidates (scanned (transactions b)))).
  unfold timer.
  destruct c as [[]|err]; cbn [snd]; rewrite code_requests_app, Hreq;
    destruct (running m); cbn; rewrite app_nil_r; reflexivity.
Qed.

(** C8 (amended).  A transaction counts as a creation exactly when its
    recipient is null or the empty string.  The scan of a found block reaches
    the transactions before the first creation on which the address
    derivation throws, all of them when none throws; it asks for the code of
    exactly one address per creation it reaches, in the order of the block,
    each the address derived from that creation, and of none for the
    creations from the throwing one on.  What is done for a creation depends
    on its sender and nonce only: two creations with the same sender and
    nonce are handled the same. *)
Theorem C8_creation_candidates (b : Block) (m : ChainMonitor) (bn : Z) :
  let reached := scanned (transactions b) in
  (forall tx, createsContract tx = true <-> tx_to tx = None \/ tx_to tx = Some "") /\
  code_requests
    (snd (processBlock_settled (Resolved (Some b)) {| this := m; blockNumber := bn |}))
  = (if initialGetBytecodeTries m <=? 0 then []
     else map (fun a => (a, initialGetBytecodeTries m - 1)) (candidates reached)) /\
  Forall2 derived (filter createsContract reached) (candidates reached) /\
  (if scans b then reached = transactions b
   else exists bad post err,
          transactions b = reached ++ bad :: post /\
          createsContract bad = true /\
          getContractAddress (tx_from bad) (tx_nonce bad) = Throw err) /\
  (forall tx1 tx2 fr,
     createsContract tx1 = true -> createsContract tx2 = true ->
     tx_from tx1 = tx_from tx2 -> tx_nonce tx1 = tx_nonce tx2 ->
     scan_transaction tx1 fr = scan_transaction tx2 fr).
Proof.
  cbv zeta.
  split; [exact createsContract_iff|].
  split; [apply code_requests_scanned|].
  split; [apply (scan_completes (scanned (transactions b))
                   {| this := m; blockNumber := bn |} (scanned_derive _))|].
  split; [apply scanned_split|].
  intros tx1 tx2 fr H1 H2 Hfrom Hnonce.
  unfold scan_transaction. rewrite H1, H2, Hfrom, Hnonce. reflexivity.
Qed.

(** C10.  When the derivation throws on a creation of a found block, the
    creations before it have been dispatched and the pause has been shrunk;
    the exception is caught and logged as a block failure, the height is not
    moved on, and the same height is scheduled again.  When the provider
    returns the same block again, the same candidates are dispatched a second
    time. *)
Theorem C10_scan_exception (b : Block) (pre post : list Transaction)
  (bad : Transaction) (err : Error) (m : ChainMonitor) (bn : Z) :
  transactions b = pre ++ bad :: post ->
  forallb derives pre = true ->
  createsContract bad = true ->
  getContractAddress (tx_from bad) (tx_nonce bad) = Throw err ->
  running m = true ->
  processBlock_settled (Resolved (Some b)) {| this := m; blockNumber := bn |} =
    (Normal tt, {| this := shrunk m; blockNumber := bn |},
     dispatched m (candidates pre)
     ++ [Log Err "[PROCESS_BLOCK:FAILED]" (LogBlock bn) err;
         SetTimeout (ProcessBlock bn) (getBlockPause (shrunk m))]) /\
  Forall2 derived (filter createsContract pre) (candidates pre) /\
  fst (await_block [Settles (Resolved (Some b)); Settles (Resolved (Some b))] m bn) =
    (dispatched m (candidates pre)
     ++ [Log Err "[PROCESS_BLOCK:FAILED]" (LogBlock bn) err;
         SetTimeout (ProcessBlock bn) (getBlockPause (shrunk m))])
    ++ [GetBlock bn]
    ++ (dispatched m (candidates pre)
        ++ [Log Err "[PROCESS_BLOCK:FAILED]" (LogBlock bn) err;
            SetTimeout (ProcessBlock bn) (getBlockPause (shrunk (shrunk m)))])
    ++ [GetBlock bn].
Proof.
  intros Htxs Hpre Hbad Herr Hrun.
  assert (Hstep : forall m', running m' = true ->
    initialGetBytecodeTries m' = initialGetBytecodeTries m ->
    processBlock_settled (Resolved (Some b)) {| this := m'; blockNumber := bn |} =
    (Normal tt, {| this := shrunk m'; blockNumber := bn |},
     dispatched m (candidates pre)
     ++ [Log Err "[PROCESS_BLOCK:FAILED]" (LogBlock bn) err;
         SetTimeout (ProcessBlock bn) (getBlockPause (shrunk m'))])).
  { intros m' Hrun' Htries.
    rewrite (processBlock_thrown b pre post bad err m' bn Htxs Hpre Hbad Herr).
    unfold timer, dispatched. rewrite Hrun', Htries. reflexivity. }
  assert (Hnext : forall p,
    next_block (scheduled
      (dispatched m (candidates pre)
       ++ [Log Err "[PROCESS_BLOCK:FAILED]" (LogBlock bn) err;
           SetTimeout (ProcessBlock bn) p])) = Some (bn, p)).
  { intros p. rewrite scheduled_app, scheduled_dispatched. reflexivity. }
  split; [apply Hstep; [exact Hrun|reflexivity]|].
  split; [apply (scan_completes pre {| this := m; blockNumber := bn |} Hpre)|].
  cbn [await_block].
  rewrite (Hstep m Hrun eq_refl), Hnext.
  unfold processBlock, emit. cbn [this blockNumber].
  rewrite (Hstep (shrunk m) Hrun eq_refl), Hnext.
  cbn [this blockNumber fst]. rewrite app_nil_r. reflexivity.
Qed.

End Creations.

(** ** Any sequence of callbacks *)

Section AnyOrder.
Context {num : Number} {env : ProcessEnv} {ext : Externals}.

(** The monitor a settled block request leaves behind. *)
Lemma processBlock_monitor (o : Settled (option Block)) (m : ChainMonitor) (bn : Z) :
  this (snd (fst (processBlock_settled o {| this := m; blockNumber := bn |}))) =
  match o with
  | Resolved (Some _) => shrunk m
  | Resolved None => grown m
  | Rejected _ => m
  end.
Proof.
  destruct o as [[b|]|err].
  - destruct (processBlock_found b m bn) as (c & e & _ & _ & _ & ->).
    destruct c as [[]|err]; reflexivity.
  - rewrite processBlock_miss. reflexivity.
  - rewrite processBlock_error. reflexivity.
Qed.

(** A task leaves the monitor as it was, up to the pause and, for the two
    public methods, the flag. *)
Lemma run_task_monitor (t : Task) (m : ChainMonitor) :
  snd (fst (run_task t m)) =
  match t with
  | CallStart => set_running true m
  | CallStop => set_running false m
  | BlockSettled _ (Resolved (Some _)) => shrunk m
  | BlockSettled _ (Resolved None) => grown m
  | _ => m
  end.
Proof.
  destruct t as [ |so| |[bn|a r]|bn o|a r o|a b c|a c o]; try reflexivity.
  - cbn [run_task]. unfold start, bind, modify, get. cbn.
    destruct (env_MONITOR_START (chainId m)) as [[bn|]|]; reflexivity.
  - destruct so; reflexivity.
  - cbn [run_task fire]. rewrite processBytecode_run. reflexivity.
  - cbn [run_task].
    pose proof (processBlock_monitor o m bn) as Hm.
    destruct (processBlock_settled o {| this := m; blockNumber := bn |}) as [[c fr] e].
    cbn [fst snd] in *. rewrite Hm. destruct o as [[b|]|err]; reflexivity.
  - cbn [run_task].
    destruct (processBytecode_settled_shape a r o m) as (e & -> & _). reflexivity.
  - destruct o; reflexivity.
Qed.

Lemma run_task_stopped (t : Task) (m : ChainMonitor) :
  is_start t = false ->
  running m = false ->
  scheduled (snd (run_task t m)) = [] /\
  running (snd (fst (run_task t m))) = false.
Proof.
  intros Ht Hrun. split.
  - destruct t as [ |so| |[bn|a r]|bn o|a r o|a b c|a c o]; try reflexivity;
      try discriminate.
    + destruct so; reflexivity.
    + cbn [run_task fire]. rewrite processBytecode_run.
      destruct (r <=? 0); reflexivity.
    + cbn [run_task].
      destruct (processBlock_step o m bn) as (fr' & e & -> & _ & _ & _ & Hs).
      cbn [snd]. rewrite Hs, Hrun. reflexivity.
    + cbn [run_task].
      destruct (processBytecode_settled_shape a r o m)
        as (e & -> & _ & _ & [Hs|[Hr _]]); [exact Hs|congruence].
    + destruct o; reflexivity.
  - rewrite run_task_monitor.
    destruct t as [ |so| |[bn|a r]|bn [[b|]|err]|a r o|a b c|a c o];
      try discriminate; try exact Hrun; reflexivity.
Qed.

Lemma run_tasks_stopped (ts : list Task) :
  forall m,
    existsb is_start ts = false ->
    running m = false ->
    scheduled (fst (run_tasks ts m)) = [] /\
    running (snd (run_tasks ts m)) = false.
Proof.
  induction ts as [|t ts IH]; intros m Hts Hrun; [split; [reflexivity|exact Hrun]|].
  cbn [existsb] in Hts. apply orb_false_iff in Hts as [Ht Hts].
  destruct (run_task_stopped t m Ht Hrun) as [Hs Hr].
  cbn [run_tasks].
  destruct (run_task t m) as [[c m1] e1]. cbn [fst snd] in *.
  destruct (IH m1 Hts Hr) as [Hs' Hr'].
  destruct (run_tasks ts m1) as [e m']. cbn [fst snd] in *.
  rewrite scheduled_app, Hs, Hs'. auto.
Qed.

(** C7.  [stop] clears the flag; calling it again changes nothing and does
    nothing.  From then on, whatever callbacks run, in whatever order and
    with whatever the provider answers ([start] apart, which is not called
    again), no timer is set and the flag stays cleared. *)
Theorem C7_stop_is_final (ts : list Task) (m : ChainMonitor) :
  existsb is_start ts = false ->
  let stopped := snd (fst (stop m)) in
  running stopped = false /\
  stop stopped = (Normal tt, stopped, []) /\
  scheduled (fst (run_tasks ts stopped)) = [] /\
  running (snd (run_tasks ts stopped)) = false.
Proof.
  intros Hts. cbv zeta.
  split; [reflexivity|]. split; [reflexivity|].
  apply run_tasks_stopped; [exact Hts|reflexivity].
Qed.

(** C5.  When the provider call fails, the error is logged, the pause and
    the height are as they were, and the timer that is set, if the monitor
    runs, is for the same height after the unchanged pause. *)
Theorem C5_provider_error (m : ChainMonitor) (bn : Z) (err : Error) :
  let r := processBlock_settled (Rejected err) {| this := m; blockNumber := bn |} in
  fst r = (Normal tt, {| this := m; blockNumber := bn |}) /\
  getBlockPause (this (snd (fst r))) = getBlockPause m /\
  snd r = Log Err "[PROCESS_BLOCK:FAILED]" (LogBlock bn) err
          :: (if running m then [SetTimeout (ProcessBlock bn) (getBlockPause m)] else []).
Proof.
  cbv zeta. rewrite processBlock_error. unfold timer. repeat split.
Qed.

End AnyOrder.

(** * The size of the pause *)

(** ** Runs of misses and of found blocks *)

Section Runs.
Context {num : Number} {env : ProcessEnv} {ext : Externals}.

(** What the loop does on [N] misses in a row while the monitor runs. *)
Lemma await_misses (N : nat) :
  forall (m : ChainMonitor) (bn : Z),
    running m = true ->
    snd (await_block (misses N) m bn) = Nat.iter N grown m /\
    block_requests (fst (await_block (misses N) m bn)) = repeat bn N /\
    scheduled (fst (await_block (misses N) m bn)) =
    map (fun k => (ProcessBlock bn, getBlockPause (Nat.iter k grown m))) (seq 1 N).
Proof.
  induction N as [|N IH]; intros m bn Hrun; [repeat split|].
  cbn [misses repeat await_block]. fold (misses N).
  rewrite processBlock_miss.
  rewrite scheduled_log, scheduled_timer, Hrun. cbn [next_block this].
  unfold processBlock, emit.
  destruct (IH (grown m) bn Hrun) as (Hm & Hb & Hs).
  destruct (await_block (misses N) (grown m) bn) as [e m']. cbn [fst snd] in *.
  repeat split.
  - rewrite Hm. symmetry. apply Nat.iter_succ_r.
  - rewrite !block_requests_app, block_requests_log, block_requests_timer, Hb.
    reflexivity.
  - rewrite !scheduled_app, scheduled_log, scheduled_timer, Hrun, Hs.
    cbn [app scheduled flat_map seq map Nat.iter]. f_equal.
    rewrite <- (seq_shift N 1), map_map. apply map_ext. intros k.
    rewrite <- Nat.iter_succ_r. reflexivity.
Qed.

Lemma grown_iter (N : nat) (m : ChainMonitor) :
  getBlockPause (Nat.iter N grown m) = Nat.iter N grow (getBlockPause m).
Proof.
  induction N as [|N IH]; [reflexivity|].
  rewrite !Nat.iter_succ, <- IH. reflexivity.
Qed.


(** What the loop leaves of the monitor after [N] answers with a block,
    whether its scan completes or throws. *)
Lemma await_hits (b : Block) (N : nat) :
  forall (m : ChainMonitor) (bn : Z),
    running m = true ->
    snd (await_block (hits N b) m bn) = Nat.iter N shrunk m.
Proof.
  induction N as [|N IH]; intros m bn Hrun; [reflexivity|].
  cbn [hits repeat await_block]. fold (hits N b).
  pose proof (processBlock_monitor (Resolved (Some b)) m bn) as Hm.
  destruct (processBlock_step (Resolved (Some b)) m bn)
    as (fr' & e & Heq & _ & Hr & _ & Hs).
  rewrite Heq in Hm |- *. cbn [fst snd] in Hm.
  rewrite Hs, Hrun. cbn [next_block].
  unfold processBlock, emit. rewrite Hrun in Hr.
  specialize (IH (this fr') (blockNumber fr') Hr).
  destruct (await_block (hits N b) (this fr') (blockNumber fr')) as [e' m'].
  cbn [snd] in *. rewrite IH, Hm. symmetry. apply Nat.iter_succ_r.
Qed.

Lemma shrunk_iter (N : nat) (m : ChainMonitor) :
  getBlockPause (Nat.iter N shrunk m) = Nat.iter N shrink (getBlockPause m).
Proof.
  induction N as [|N IH]; [reflexivity|].
  rewrite !Nat.iter_succ, <- IH. reflexivity.
Qed.

End Runs.

(** ** The order of the doubles

    [Math.min] and [Math.max] and the comparisons of two doubles, from the
    specification of the primitive operations. *)


















(** ** The pauses under the default tunables *)

Lemma double_mem_In (x : float) (l : list float) :
  double_mem x l = true <-> In x l.
Proof.
  unfold double_mem. rewrite existsb_exists. split.
  - intros (y & Hy & Heq). apply FloatAxioms.Leibniz.eqb_spec in Heq.
    subst y. exact Hy.
  - intros Hx. exists x. split; [exact Hx|].
    apply FloatAxioms.Leibniz.eqb_spec. reflexivity.
Qed.

(** The search has reached every pause: a miss and a found block lead from
    each of the pauses found to one of them.  Each lies within the limits;
    a found block makes it strictly smaller unless it is the lower limit,
    which it leaves in place. *)
Lemma default_pauses_checked :
  forallb
    (fun p =>
       double_mem (grow (num := Double) (env := Sample.default_env) p) default_pauses
       && double_mem (shrink (num := Double) (env := Sample.default_env) p) default_pauses
       && within_limits (env := Sample.default_env) p
       && (if PrimFloat.ltb (BLOCK_PAUSE_LOWER_LIMIT (num := Double)
                               (env := Sample.default_env)) p
           then PrimFloat.ltb (shrink (num := Double) (env := Sample.default_env) p) p
           else PrimFloat.Leibniz.eqb
                  (shrink (num := Double) (env := Sample.default_env) p)
                  (BLOCK_PAUSE_LOWER_LIMIT (num := Double) (env := Sample.default_env))))
    default_pauses = true.
Proof. vm_compute. reflexivity. Qed.

Lemma default_pauses_start :
  double_mem
    (getBlockPause (new_ChainMonitor (num := Double) (env := Sample.default_env) ""))
    default_pauses = true.
Proof. vm_compute. reflexivity. Qed.

(** From each of them 43 misses in a row lead to the upper limit and 43 found
    blocks to the lower limit, which a further miss, or found block, leaves
    in place; and a miss makes a pause strictly longer unless it is the upper
    limit. *)
Lemma default_pauses_saturate :
  forallb
    (fun p =>
       PrimFloat.Leibniz.eqb
         (Nat.iter 43 (grow (num := Double) (env := Sample.default_env)) p)
         (BLOCK_PAUSE_UPPER_LIMIT (num := Double) (env := Sample.default_env))
       && PrimFloat.Leibniz.eqb
            (Nat.iter 43 (shrink (num := Double) (env := Sample.default_env)) p)
            (BLOCK_PAUSE_LOWER_LIMIT (num := Double) (env := Sample.default_env))
       && (if PrimFloat.ltb p (BLOCK_PAUSE_UPPER_LIMIT (num := Double)
                                 (env := Sample.default_env))
           then PrimFloat.ltb p (grow (num := Double) (env := Sample.default_env) p)
           else PrimFloat.Leibniz.eqb
                  (grow (num := Double) (env := Sample.default_env) p)
                  (BLOCK_PAUSE_UPPER_LIMIT (num := Double) (env := Sample.default_env))))
    default_pauses = true /\
  grow (num := Double) (env := Sample.default_env)
    (BLOCK_PAUSE_UPPER_LIMIT (num := Double) (env := Sample.default_env))
  = BLOCK_PAUSE_UPPER_LIMIT (num := Double) (env := Sample.default_env) /\
  shrink (num := Double) (env := Sample.default_env)
    (BLOCK_PAUSE_LOWER_LIMIT (num := Double) (env := Sample.default_env))
  = BLOCK_PAUSE_LOWER_LIMIT (num := Double) (env := Sample.default_env).
Proof. vm_compute. repeat split. Qed.

#[local] Opaque default_pauses.

Lemma default_pauses_step (p : float) :
  In p default_pauses ->
  In (grow (num := Double) (env := Sample.default_env) p) default_pauses /\
  In (shrink (num := Double) (env := Sample.default_env) p) default_pauses /\
  within_limits (env := Sample.default_env) p = true /\
  (PrimFloat.ltb (BLOCK_PAUSE_LOWER_LIMIT (num := Double) (env := Sample.default_env)) p
   = true ->
   PrimFloat.ltb (shrink (num := Double) (env := Sample.default_env) p) p = true) /\
  (PrimFloat.ltb (BLOCK_PAUSE_LOWER_LIMIT (num := Double) (env := Sample.default_env)) p
   = false ->
   shrink (num := Double) (env := Sample.default_env) p
   = BLOCK_PAUSE_LOWER_LIMIT (num := Double) (env := Sample.default_env)).
Proof.
  intros Hp.
  pose proof default_pauses_checked as Hc.
  rewrite forallb_forall in Hc. specialize (Hc p Hp). cbv beta in Hc.
  apply andb_true_iff in Hc as [Hc Hfall].
  apply andb_true_iff in Hc as [Hc Hwithin].
  apply andb_true_iff in Hc as [Hup Hdown].
  apply double_mem_In in Hup, Hdown.
  split; [exact Hup|]. split; [exact Hdown|]. split; [exact Hwithin|].
  destruct (PrimFloat.ltb (BLOCK_PAUSE_LOWER_LIMIT (num := Double)
                             (env := Sample.default_env)) p).
  - split; [intros _; exact Hfall|discriminate].
  - split; [discriminate|intros _].
    apply FloatAxioms.Leibniz.eqb_spec. exact Hfall.
Qed.

(** ** Back-off, speed-up and the limits, on doubles *)

Section OnDoubles.
Context {env : ProcessEnv} {ext : Externals}.
#[local] Existing Instance Double.

Lemma grow_default (p : float) :
  default_tunables env -> grow p = grow (env := Sample.default_env) p.
Proof. intros (Hf & Hu & _). unfold grow. rewrite Hf, Hu. reflexivity. Qed.

Lemma shrink_default (p : float) :
  default_tunables env -> shrink p = shrink (env := Sample.default_env) p.
Proof. intros (Hf & _ & Hl & _). unfold shrink. rewrite Hf, Hl. reflexivity. Qed.


(** With the default tunables every state the callbacks bring about has one
    of the pauses found by the search. *)
Lemma reachable_default_pause (m : ChainMonitor) :
  default_tunables env -> reachable m -> In (getBlockPause m) default_pauses.
Proof.
  intros Hd (chain & ts & ->).
  assert (H0 : In (getBlockPause (new_ChainMonitor chain)) default_pauses).
  { destruct Hd as (_ & _ & _ & Hp).
    change (getBlockPause (new_ChainMonitor chain))
      with (getBlockPause (new_ChainMonitor (env := env) "")).
    rewrite Hp. exact (proj1 (double_mem_In _ _) default_pauses_start). }
  generalize dependent (new_ChainMonitor chain). clear chain.
  induction ts as [|t ts IH]; intros m Hm; [exact Hm|].
  cbn [run_tasks].
  pose proof (run_task_monitor t m) as Ht.
  destruct (run_task t m) as [[c m1] e1]. cbn [fst snd] in Ht.
  specialize (IH m1).
  destruct (run_tasks ts m1) as [e m']. cbn [snd] in *.
  apply IH. subst m1.
  destruct (default_pauses_step _ Hm) as (Hup & Hdown & _).
  destruct t as [ |so| |h|bn [[b|]|err]|a r o|a b k|a k o];
    [exact Hm|exact Hm|exact Hm|exact Hm| | |exact Hm|exact Hm|exact Hm|exact Hm].
  - cbn [shrunk set_getBlockPause getBlockPause]. fold (shrink (getBlockPause m)).
    rewrite (shrink_default _ Hd). exact Hdown.
  - cbn [grown set_getBlockPause getBlockPause]. fold (grow (getBlockPause m)).
    rewrite (grow_default _ Hd). exact Hup.
Qed.





End OnDoubles.

(** * The same laws without rounding

    On [Rational] the products and quotients are exact.  There the pause
    after [N] misses has the closed form that the rounded products only
    approximate, a found block always shortens a pause above the limit, and
    the limits are an invariant.  These are statements about the idealised
    arithmetic, not about the doubles the program computes with. *)

Lemma or_default_nonzero (x : JsInt) (d : Q) :
  ~ (d == 0)%Q -> ~ (or_default (num := Rational) x d == 0)%Q.
Proof.
  intros Hd. unfold or_default.
  destruct x as [z|]; [|exact Hd].
  destruct (Z.eqb_spec z 0) as [->|Hz]; [exact Hd|].
  cbn [of_int Rational]. unfold Qeq, inject_Z; cbn. lia.
Qed.

Section Exact.
Context {env : ProcessEnv} {ext : Externals}.
#[local] Existing Instance Rational.

Local Open Scope Q_scope.

Lemma Qpower_succ (q : Q) (n : nat) : q ^ Z.of_nat (S n) == q ^ Z.of_nat n * q.
Proof.
  rewrite Nat2Z.inj_succ. unfold Z.succ.
  rewrite Qpower_plus' by lia. rewrite Qpower_1_r. reflexivity.
Qed.

(** Clamping after each multiplication is clamping once at the end. *)
Lemma min_mult_min (a f u : Q) :
  1 <= f -> 0 <= u -> Qmin (Qmin a u * f) u == Qmin (a * f) u.
Proof.
  intros Hf Hu.
  destruct (Q.min_spec a u) as [[H1 H2]|[H1 H2]]; rewrite H2; [reflexivity|].
  destruct (Q.min_spec (u * f) u) as [[H3 H4]|[H3 H4]]; rewrite H4;
    destruct (Q.min_spec (a * f) u) as [[H5 H6]|[H5 H6]]; rewrite H6;
    try reflexivity; nra.
Qed.

Lemma grown_closed_form (N : nat) (m : ChainMonitor) :
  1 <= BLOCK_PAUSE_FACTOR -> 0 <= BLOCK_PAUSE_UPPER_LIMIT -> (0 < N)%nat ->
  getBlockPause (Nat.iter N grown m) ==
  Math_min (getBlockPause m * BLOCK_PAUSE_FACTOR ^ Z.of_nat N) BLOCK_PAUSE_UPPER_LIMIT.
Proof.
  intros Hf Hu HN. unfold Math_min.
  induction N as [|N IH]; [lia|].
  destruct N as [|N].
  - cbn [Nat.iter grown set_getBlockPause getBlockPause]. unfold Math_min.
    change (Z.of_nat 1) with 1%Z. rewrite Qpower_1_r. reflexivity.
  - specialize (IH ltac:(lia)).
    change (Nat.iter (S (S N)) grown m) with (grown (Nat.iter (S N) grown m)).
    cbn [grown set_getBlockPause getBlockPause]. unfold Math_min.
    rewrite IH, min_mult_min by assumption.
    rewrite (Qpower_succ _ (S N)), Qmult_assoc. reflexivity.
Qed.

(** Without rounding, the pause after [N >= 1] misses is the initial pause
    times the factor to the [N], clamped at the upper limit. *)
Remark exact_miss_backoff (N : nat) (m : ChainMonitor) (bn : Z) :
  1 <= BLOCK_PAUSE_FACTOR ->
  0 <= BLOCK_PAUSE_UPPER_LIMIT ->
  running m = true ->
  (0 < N)%nat ->
  getBlockPause (snd (await_block (misses N) m bn)) ==
    Math_min (getBlockPause m * BLOCK_PAUSE_FACTOR ^ Z.of_nat N) BLOCK_PAUSE_UPPER_LIMIT.
Proof.
  intros Hf Hu Hrun HN.
  destruct (await_misses N m bn Hrun) as (-> & _).
  apply grown_closed_form; assumption.
Qed.

Lemma div_factor_lt (p f : Q) : 1 < f -> 0 < p -> p / f < p.
Proof.
  intros Hf Hp. apply Qlt_shift_div_r; [lra|]. nra.
Qed.

Lemma div_factor_le (p f : Q) : 1 <= f -> 0 <= p -> p / f <= p.
Proof.
  intros Hf Hp. apply Qle_shift_div_r; [lra|]. nra.
Qed.

(** Without rounding, with a factor above 1 and a non-negative lower limit,
    a found block leaves a pause that is strictly smaller while above the
    limit. *)
Remark exact_hit_speedup (m : ChainMonitor) :
  1 < BLOCK_PAUSE_FACTOR ->
  0 <= BLOCK_PAUSE_LOWER_LIMIT ->
  BLOCK_PAUSE_LOWER_LIMIT < getBlockPause m ->
  getBlockPause (shrunk m) < getBlockPause m.
Proof.
  intros Hf Hl Hp.
  cbn [shrunk set_getBlockPause getBlockPause Math_max div Rational].
  apply Q.max_lub_lt; [|exact Hp].
  apply div_factor_lt; lra.
Qed.

Lemma grown_in_bounds (m : ChainMonitor) :
  0 <= BLOCK_PAUSE_LOWER_LIMIT ->
  BLOCK_PAUSE_LOWER_LIMIT <= BLOCK_PAUSE_UPPER_LIMIT ->
  1 <= BLOCK_PAUSE_FACTOR ->
  pause_in_bounds m -> pause_in_bounds (grown m).
Proof.
  intros Hl Hlu Hf [Hlo Hhi]. unfold pause_in_bounds, grown.
  cbn [getBlockPause set_getBlockPause Math_min mul Rational]. split.
  - apply Q.min_glb; [nra|exact Hlu].
  - apply Q.le_min_r.
Qed.

Lemma shrunk_in_bounds (m : ChainMonitor) :
  0 <= BLOCK_PAUSE_LOWER_LIMIT ->
  BLOCK_PAUSE_LOWER_LIMIT <= BLOCK_PAUSE_UPPER_LIMIT ->
  1 <= BLOCK_PAUSE_FACTOR ->
  pause_in_bounds m -> pause_in_bounds (shrunk m).
Proof.
  intros Hl Hlu Hf [Hlo Hhi]. unfold pause_in_bounds, shrunk.
  cbn [getBlockPause set_getBlockPause Math_max div Rational]. split.
  - apply Q.le_max_r.
  - apply Q.max_lub; [|exact Hlu].
    apply Qle_trans with (getBlockPause m); [|exact Hhi].
    apply div_factor_le; lra.
Qed.

(** Without rounding, limits with 0 <= lower <= upper and a factor of at
    least 1 are kept by every callback once the pause lies within them. *)
Remark exact_pause_within_limits (ts : list Task) :
  0 <= BLOCK_PAUSE_LOWER_LIMIT ->
  BLOCK_PAUSE_LOWER_LIMIT <= BLOCK_PAUSE_UPPER_LIMIT ->
  1 <= BLOCK_PAUSE_FACTOR ->
  forall m, pause_in_bounds m -> pause_in_bounds (snd (run_tasks ts m)).
Proof.
  intros Hl Hlu Hf.
  induction ts as [|t ts IH]; intros m Hm; [exact Hm|].
  cbn [run_tasks].
  pose proof (run_task_monitor t m) as Ht.
  destruct (run_task t m) as [[c m1] e1]. cbn [fst snd] in Ht.
  specialize (IH m1).
  destruct (run_tasks ts m1) as [e m']. cbn [snd] in *.
  apply IH. subst m1.
  destruct t as [ |so| |h|bn [[b|]|err]|a r o|a b k|a k o];
    auto using grown_in_bounds, shrunk_in_bounds.
Qed.

End Exact.

(** * The statements at sample inputs

    All on doubles, where the model computes what the program computes. *)

(** C1, as stated, fails: block 101 is retrieved, the derivation throws on
    its second creation, and the height stays at 101. *)
Lemma C1_counterexample :
  scans (ext := Sample.externals) Sample.block101 = false /\
  blockNumber
    (snd (fst (processBlock_settled (num := Double) (env := Sample.default_env)
                 (ext := Sample.externals)
                 (Resolved (Some Sample.block101))
                 {| this := Sample.monitor0; blockNumber := 101 |}))) = 101.
Proof. split; reflexivity. Qed.



(** A run on doubles with the default tunables: twelve misses take the pause
    from 10000 ms to the upper limit, and the found blocks that follow bring
    it down, strictly, to the lower limit, where it stays; it is within the
    limits throughout. *)
Remark default_run_on_doubles :
  let ps :=
    pauses (fst (await_block (num := Double) (env := Sample.default_env)
                   (ext := Sample.externals)
                   (misses 12 ++ hits 45 Sample.block100) Sample.monitor0 100)) in
  List.length ps = 57%nat /\
  nth 11 ps 0%float = 30000%float /\
  nth 56 ps 0%float = 500%float /\
  all_within 500 30000 ps = true /\
  falls_to 500 (skipn 11 ps) = true.
Proof. vm_compute. repeat split. Qed.



Lemma C4_witness :
  List.length
    (code_requests
       (fst (retriever (num := Double) (ext := Sample.externals)
               [Settles (Resolved "0x"); Settles (Rejected "timeout");
                Settles (Resolved "0x"); Settles (Resolved "0x")]
               Sample.monitor0 "0xc0" 3))) = 3%nat /\
  fst (retriever (num := Double) (ext := Sample.externals)
         [Settles (Resolved "0x")] Sample.monitor0 "0xc0" 0) = [].
Proof.
  split.
  - apply (C4_bounded_retries (num := Double) (ext := Sample.externals)
             [Settles (Resolved "0x"); Settles (Rejected "timeout");
              Settles (Resolved "0x"); Settles (Resolved "0x")]
             Sample.monitor0 "0xc0" 3).
    + reflexivity.
    + repeat constructor.
    + cbn. lia.
  - apply (C4_bounded_retries (num := Double) (ext := Sample.externals)
             [Settles (Resolved "0x")] Sample.monitor0 "0xc0" 0).
    lia.
Defined.

Lemma C6_witness :
  "0x60806040330033" <> "0x" /\
  hexToBytes (Externals := Sample.externals) "0x60806040330033"
    = Normal [96; 128; 96; 64; 51; 0; 51] /\
  processBytecode_settled (num := Double) (ext := Sample.externals) "0xc0" 2
    (Resolved "0x60806040330033") Sample.monitor0
  = (Normal tt, Sample.monitor0,
     [Assemble (ext := Sample.externals) "ipfs" "0xc0" "0x60806040330033"]) /\
  processBytecode_settled (num := Double) (ext := Sample.externals) "0xc0" 2
    (Resolved "0x6080") Sample.monitor0
  = (Normal tt, Sample.monitor0,
     [Log (ext := Sample.externals) Err "[GET_BYTECODE:METADATA_READING]"
        (LogAddress "0xc0") "Unexpected end of CBOR data"]).
Proof.
  split; [discriminate|]. split; [reflexivity|]. split.
  - apply (C6_code_found (num := Double) (ext := Sample.externals)
             "0xc0" 2 "0x60806040330033"
             [96; 128; 96; 64; 51; 0; 51] [] Sample.monitor0);
      [discriminate|reflexivity].
  - apply (C6_code_found (num := Double) (ext := Sample.externals)
             "0xc0" 2 "0x6080" [96; 128] [] Sample.monitor0);
      [discriminate|reflexivity].
Defined.

Lemma C7_witness :
  scheduled
    (fst (run_tasks (num := Double) (env := Sample.default_env)
            (ext := Sample.externals)
            [TimerFires (ProcessBlock 100);
             BlockSettled 100 (Resolved (Some Sample.block100));
             CodeSettled "0xf1/5" 2 (Resolved "0x");
             CallStop;
             BlockSettled 101 (Rejected "timeout")]
            (snd (fst (stop (ext := Sample.externals) Sample.monitor0))))) = [] /\
  scheduled
    (fst (run_tasks (num := Double) (env := Sample.default_env)
            (ext := Sample.externals)
            [BlockSettled 100 (Resolved (Some Sample.block100))]
            Sample.monitor0))
  = [(ProcessBlock 101, 0x1.1c1745d1745d1p+13%float)].
Proof.
  split; [|reflexivity].
  apply (C7_stop_is_final (num := Double) (env := Sample.default_env)
           (ext := Sample.externals)
           [TimerFires (ProcessBlock 100);
            BlockSettled 100 (Resolved (Some Sample.block100));
            CodeSettled "0xf1/5" 2 (Resolved "0x");
            CallStop;
            BlockSettled 101 (Rejected "timeout")]
           Sample.monitor0).
  reflexivity.
Defined.

(** C8, as stated, fails: block 101 holds three creations, the derivation
    throws on the second, and only the first yields an address; the third
    would derive, but is not reached. *)
Lemma C8_counterexample :
  filter createsContract (transactions Sample.block101)
  = [Sample.creation; Sample.broken; Sample.creation'] /\
  getContractAddress (Externals := Sample.externals)
    (tx_from Sample.creation') (tx_nonce Sample.creation') = Normal "0xf3/0"%string /\
  code_requests
    (snd (processBlock_settled (num := Double) (env := Sample.default_env)
            (ext := Sample.externals)
            (Resolved (Some Sample.block101))
            {| this := Sample.monitor0; blockNumber := 101 |}))
  = [("0xf1/5"%string, 2)].
Proof. repeat split. Qed.


(** Limits in order, a factor above 1 and a pause within the limits at
    construction do not keep the pause within the limits on doubles: with
    the factor, the upper limit and the pause all read as [Infinity], a found
    block leaves [Infinity / Infinity], which is [NaN]. *)
Remark limits_lost_on_infinite_tunables :
  within_limits (env := Sample.boundless_env)
    (getBlockPause (new_ChainMonitor (num := Double) (env := Sample.boundless_env) "1"))
  = true /\
  PrimFloat.ltb 1 (BLOCK_PAUSE_FACTOR (num := Double) (env := Sample.boundless_env))
  = true /\
  PrimFloat.is_nan
    (getBlockPause
       (snd (fst (run_task (num := Double) (env := Sample.boundless_env)
                    (ext := Sample.externals)
                    (BlockSettled 100 (Resolved (Some Sample.block100)))
                    (new_ChainMonitor (env := Sample.boundless_env) "1")))))
  = true.
Proof. repeat split. Qed.


Lemma C10_witness :
  code_requests
    (fst (await_block (num := Double) (env := Sample.default_env)
            (ext := Sample.externals)
            [Settles (Resolved (Some Sample.block101));
             Settles (Resolved (Some Sample.block101))]
            Sample.monitor0 101))
  = [("0xf1/5"%string, 2); ("0xf1/5"%string, 2)] /\
  block_requests
    (fst (await_block (num := Double) (env := Sample.default_env)
            (ext := Sample.externals)
            [Settles (Resolved (Some Sample.block101));
             Settles (Resolved (Some Sample.block101))]
            Sample.monitor0 101))
  = [101; 101].
Proof.
  destruct (C10_scan_exception (num := Double) (env := Sample.default_env)
              (ext := Sample.externals)
              Sample.block101 [Sample.creation] [Sample.creation'] Sample.broken
              "missing from address" Sample.monitor0 101
              eq_refl eq_refl eq_refl eq_refl eq_refl) as (_ & _ & Htrace).
  rewrite Htrace. split; reflexivity.
Defined.

(** * Further properties of the monitor *)

(** ** The block loop keeps going, stops on [stop], and can get stuck *)

Section PollerLife.
Context {num : Number} {env : ProcessEnv} {ext : Externals}.

Lemma await_block_alive (evs : list (Event (option Block))) :
  forall (m : ChainMonitor) (bn : Z),
    running m = true ->
    forallb settles evs = true ->
    List.length (block_requests (fst (await_block evs m bn))) = List.length evs /\
    List.length (scheduled (fst (await_block evs m bn))) = List.length evs /\
    running (snd (await_block evs m bn)) = true.
Proof.
  induction evs as [|[o|] evs IH]; intros m bn Hrun Hevs; cbn [await_block].
  - auto.
  - cbn [forallb settles andb] in Hevs.
    destruct (processBlock_step o m bn) as (fr' & e & -> & _ & Hr & Hb & Hs).
    rewrite Hrun in Hs, Hr. rewrite Hs. cbn [next_block].
    unfold processBlock, emit.
    destruct (IH (this fr') (blockNumber fr') Hr Hevs) as (IHb & IHs & IHr).
    destruct (await_block evs (this fr') (blockNumber fr')) as [e' m'].
    cbn [fst snd] in *.
    rewrite !block_requests_app, !scheduled_app, Hb, Hs. cbn.
    rewrite IHb, IHs. auto.
  - discriminate.
Qed.

Lemma await_block_stopped (evs : list (Event (option Block))) :
  forall (m : ChainMonitor) (bn : Z),
    running m = false ->
    block_requests (fst (await_block evs m bn)) = [] /\
    scheduled (fst (await_block evs m bn)) = [] /\
    running (snd (await_block evs m bn)) = false.
Proof.
  induction evs as [|[o|] evs IH]; intros m bn Hrun; cbn [await_block].
  - auto.
  - destruct (processBlock_step o m bn) as (fr' & e & -> & _ & Hr & Hb & Hs).
    rewrite Hs, Hrun in *. cbn [next_block fst snd]. auto.
  - unfold stop, modify.
    specialize (IH (set_running false m) bn eq_refl).
    destruct (await_block evs (set_running false m) bn) as [e' m']. exact IH.
Qed.

(** X1.  While the monitor runs and [stop] is not called, every answer of the
    provider, whatever it is (a block, no block, an error, a block whose scan
    throws), sets exactly one timer and is followed by the next request: the
    loop makes one request more than it got answers, and still runs. *)
Theorem poller_never_dies (evs : list (Event (option Block)))
  (m : ChainMonitor) (bn : Z) :
  running m = true ->
  forallb settles evs = true ->
  List.length (block_requests (fst (poller evs m bn))) = S (List.length evs) /\
  List.length (scheduled (fst (poller evs m bn))) = List.length evs /\
  running (snd (poller evs m bn)) = true.
Proof.
  intros Hrun Hevs. unfold poller, processBlock, emit.
  destruct (await_block_alive evs m bn Hrun Hevs) as (Hb & Hs & Hr).
  destruct (await_block evs m bn) as [e m']. cbn [fst snd] in *.
  rewrite block_requests_app, scheduled_app. cbn. rewrite Hb, Hs. auto.
Qed.

Lemma poll_loop_stopped (evs : list PollEvent) :
  forall (m : ChainMonitor) (st : PollState),
    running m = false ->
    scheduled (fst (fst (poll_loop evs m st))) = [] /\
    block_requests (fst (fst (poll_loop evs m st))) =
      match st with
      | Waiting bn => if existsb elapses evs then [bn] else []
      | _ => []
      end /\
    running (snd (fst (poll_loop evs m st))) = false.
Proof.
  induction evs as [|[o| |] evs IH]; intros m st Hrun; cbn [poll_loop existsb elapses orb].
  - destruct st; auto.
  - destruct st as [bn|bn|]; [|apply (IH m (Waiting bn) Hrun)|apply (IH m Ended Hrun)].
    destruct (processBlock_step o m bn) as (fr' & e & -> & _ & Hr & Hb & Hs).
    rewrite Hrun in Hs, Hr. rewrite Hs. cbn [next_block].
    destruct (IH (this fr') Ended Hr) as (IHs & IHb & IHr).
    destruct (poll_loop evs (this fr') Ended) as [[e' m'] st'].
    cbn [fst snd] in *.
    rewrite scheduled_app, block_requests_app, Hs, Hb, IHs, IHb. auto.
  - destruct st as [bn|bn|];
      [apply (IH m (Requested bn) Hrun)| |apply (IH m Ended Hrun)].
    unfold processBlock, emit.
    destruct (IH m (Requested bn) Hrun) as (IHs & IHb & IHr).
    destruct (poll_loop evs m (Requested bn)) as [[e' m'] st'].
    cbn [fst snd] in *.
    rewrite scheduled_app, block_requests_app, IHs, IHb. auto.
  - unfold stop, modify.
    destruct (IH (set_running false m) st eq_refl) as (IHs & IHb & IHr).
    destruct (poll_loop evs (set_running false m) st) as [[e' m'] st'].
    cbn [fst snd] in *. auto.
Qed.

(** X2.  From the call of [stop] on no timer is set.  A timer that was pending
    when [stop] was called is not cleared: when it elapses, its one request is
    still made, and the answer is taken without another timer.  A request that
    was in flight is answered, and no request follows.  So at most one block
    request is made after [stop]. *)
Theorem poller_ends_on_stop (evs : list PollEvent) (m : ChainMonitor) (st : PollState) :
  let r := poll_loop (StopIsCalled :: evs) m st in
  scheduled (fst (fst r)) = [] /\
  block_requests (fst (fst r)) =
    match st with
    | Waiting bn => if existsb elapses evs then [bn] else []
    | _ => []
    end /\
  running (snd (fst r)) = false.
Proof.
  cbv zeta. cbn [poll_loop]. unfold stop, modify.
  destruct (poll_loop_stopped evs (set_running false m) st eq_refl) as (Hs & Hb & Hr).
  destruct (poll_loop evs (set_running false m) st) as [[e' m'] st'].
  cbn [fst snd] in *. auto.
Qed.

End PollerLife.

Section PollerEdges.
Context {num : Number} {env : ProcessEnv} {ext : Externals}.

(** X3.  [stop] does not cancel the request in flight: a block that arrives
    after it is still scanned.  The pause is shrunk, the creations before the
    first one on which the derivation throws are dispatched (all of them when
    none throws), the height moves on exactly when the scan completes, and a
    scan that throws is logged; only the timer for the next poll is left
    out. *)
Theorem stopped_monitor_still_scans (b : Block) (m : ChainMonitor) (bn : Z) :
  running m = false ->
  let r := processBlock_settled (Resolved (Some b)) {| this := m; blockNumber := bn |} in
  fst r = (Normal tt,
           {| this := shrunk m; blockNumber := if scans b then bn + 1 else bn |}) /\
  (exists rest,
     snd r = dispatched m (candidates (scanned (transactions b))) ++ rest /\
     if scans b then rest = []
     else exists err, rest = [Log Err "[PROCESS_BLOCK:FAILED]" (LogBlock bn) err]) /\
  scheduled (snd r) = [] /\
  block_requests (snd r) = [].
Proof.
  intros Hrun. cbv zeta.
  destruct (processBlock_step (Resolved (Some b)) m bn)
    as (fr' & e0 & Hstep & _ & _ & Hb0 & Hs0).
  rewrite Hrun in Hs0.
  pose proof (scan_normal_iff (transactions b) {| this := shrunk m; blockNumber := bn |})
    as Hiff.
  destruct (processBlock_found b m bn) as (c & e & Hscan & _ & _ & Heq).
  destruct (scan_any (transactions b) {| this := shrunk m; blockNumber := bn |})
    as (c' & Hany).
  rewrite Hscan in Hany, Hiff. injection Hany as _ He. cbn [fst this] in Hiff, He.
  change (dispatched (shrunk m) (candidates (scanned (transactions b))))
    with (dispatched m (candidates (scanned (transactions b)))) in He.
  split; [|split; [|split]].
  - rewrite Heq. unfold scans.
    destruct c as [[]|err].
    + rewrite (proj1 Hiff eq_refl). reflexivity.
    + destruct (forallb derives (transactions b)); [|reflexivity].
      destruct Hiff as [_ Hiff]. discriminate (Hiff eq_refl).
  - rewrite Heq. unfold scans, timer. rewrite Hrun, He.
    destruct c as [[]|err]; cbn [snd].
    + exists []. rewrite (proj1 Hiff eq_refl). split; reflexivity.
    + exists [Log Err "[PROCESS_BLOCK:FAILED]" (LogBlock bn) err].
      split; [reflexivity|].
      destruct (forallb derives (transactions b)); [|eauto].
      destruct Hiff as [_ Hiff]. discriminate (Hiff eq_refl).
  - rewrite Hstep. exact Hs0.
  - rewrite Hstep. exact Hb0.
Qed.

Lemma block_requests_dispatched (m : ChainMonitor) (addrs : list string) :
  block_requests (dispatched m addrs) = [].
Proof.
  unfold dispatched, block_requests.
  induction addrs as [|a addrs IH]; [reflexivity|].
  cbn. destruct (initialGetBytecodeTries m <=? 0); exact IH.
Qed.

(** X4.  A block on which the address derivation throws blocks the loop: as long
    as the provider returns it, the same height is requested again, the
    creations before the throwing one are dispatched again at every poll,
    and nothing else is ever dispatched. *)
Theorem poller_stuck_on_throwing_block (b : Block) (pre post : list Transaction)
  (bad : Transaction) (err : Error) (N : nat) (m : ChainMonitor) (bn : Z) :
  transactions b = pre ++ bad :: post ->
  forallb derives pre = true ->
  createsContract bad = true ->
  getContractAddress (tx_from bad) (tx_nonce bad) = Throw err ->
  running m = true ->
  block_requests (fst (await_block (hits N b) m bn)) = repeat bn N /\
  code_requests (fst (await_block (hits N b) m bn)) =
    List.concat (repeat (code_requests (dispatched m (candidates pre))) N) /\
  running (snd (await_block (hits N b) m bn)) = true.
Proof.
  intros Htxs Hpre Hbad Herr. revert m.
  induction N as [|N IH]; intros m Hrun; [auto|].
  cbn [hits repeat await_block]. fold (hits N b).
  rewrite (processBlock_thrown b pre post bad err m bn Htxs Hpre Hbad Herr).
  unfold timer. rewrite Hrun.
  rewrite scheduled_app, scheduled_dispatched. cbn [app scheduled flat_map next_block].
  unfold processBlock, emit. cbn [this blockNumber].
  destruct (IH (shrunk m) Hrun) as (IHb & IHc & IHr).
  destruct (await_block (hits N b) (shrunk m) bn) as [e m'].
  cbn [fst snd] in *.
  rewrite !block_requests_app, !code_requests_app, IHb, IHc.
  rewrite block_requests_dispatched. cbn. rewrite app_nil_r. auto.
Qed.

End PollerEdges.

Lemma stopped_monitor_still_scans_witness :
  snd (processBlock_settled (num := Double) (env := Sample.default_env)
         (ext := Sample.externals) (Resolved (Some Sample.block100))
         {| this := set_running false Sample.monitor0; blockNumber := 100 |})
  = [GetCode "0xf1/5" 2; GetCode "0xf3/0" 2] /\
  fst (processBlock_settled (num := Double) (env := Sample.default_env)
         (ext := Sample.externals) (Resolved (Some Sample.block101))
         {| this := set_running false Sample.monitor0; blockNumber := 101 |})
  = (Normal tt,
     {| this := shrunk (env := Sample.default_env) (set_running false Sample.monitor0);
        blockNumber := 101 |}) /\
  snd (processBlock_settled (num := Double) (env := Sample.default_env)
         (ext := Sample.externals) (Resolved (Some Sample.block101))
         {| this := set_running false Sample.monitor0; blockNumber := 101 |})
  = [GetCode "0xf1/5" 2;
     Log Err "[PROCESS_BLOCK:FAILED]" (LogBlock 101) "missing from address"].
Proof.
  destruct (stopped_monitor_still_scans (num := Double) (env := Sample.default_env)
              (ext := Sample.externals) Sample.block101
              (set_running false Sample.monitor0) 101 eq_refl) as (Hfr & _).
  split; [reflexivity|]. split; [exact Hfr|reflexivity].
Defined.

Lemma poller_never_dies_witness :
  List.length
    (block_requests
       (fst (poller (num := Double) (env := Sample.default_env)
               (ext := Sample.externals)
               [Settles (Resolved None); Settles (Rejected "timeout");
                Settles (Resolved (Some Sample.block101));
                Settles (Resolved (Some Sample.block100))]
               Sample.monitor0 100))) = 5%nat.
Proof.
  apply (poller_never_dies (num := Double) (env := Sample.default_env)
           (ext := Sample.externals)
           [Settles (Resolved None); Settles (Rejected "timeout");
            Settles (Resolved (Some Sample.block101));
            Settles (Resolved (Some Sample.block100))]
           Sample.monitor0 100); reflexivity.
Defined.

Lemma poller_ends_on_stop_witness :
  block_requests
    (fst (fst (poll_loop (num := Double) (env := Sample.default_env)
                 (ext := Sample.externals)
                 [StopIsCalled; TimerElapses;
                  Answers (Resolved (Some Sample.block100)); TimerElapses]
                 Sample.monitor0 (Waiting 100))))
  = [100] /\
  block_requests
    (fst (fst (poll_loop (num := Double) (env := Sample.default_env)
                 (ext := Sample.externals)
                 [StopIsCalled;
                  Answers (Resolved (Some Sample.block100)); TimerElapses]
                 Sample.monitor0 (Requested 100))))
  = [] /\
  block_requests
    (fst (fst (poll_loop (num := Double) (env := Sample.default_env)
                 (ext := Sample.externals)
                 [Answers (Resolved None); StopIsCalled; TimerElapses;
                  Answers (Resolved None); TimerElapses]
                 Sample.monitor0 (Requested 100))))
  = [100] /\
  scheduled
    (fst (fst (poll_loop (num := Double) (env := Sample.default_env)
                 (ext := Sample.externals)
                 [Answers (Resolved None); StopIsCalled; TimerElapses;
                  Answers (Resolved None); TimerElapses]
                 Sample.monitor0 (Requested 100))))
  = [(ProcessBlock 100, 11000%float)].
Proof.
  split; [|split].
  - apply (poller_ends_on_stop (num := Double) (env := Sample.default_env)
             (ext := Sample.externals)
             [TimerElapses; Answers (Resolved (Some Sample.block100)); TimerElapses]
             Sample.monitor0 (Waiting 100)).
  - apply (poller_ends_on_stop (num := Double) (env := Sample.default_env)
             (ext := Sample.externals)
             [Answers (Resolved (Some Sample.block100)); TimerElapses]
             Sample.monitor0 (Requested 100)).
  - split; reflexivity.
Defined.

Lemma poller_stuck_on_throwing_block_witness :
  block_requests
    (fst (await_block (num := Double) (env := Sample.default_env)
            (ext := Sample.externals) (hits 3 Sample.block101) Sample.monitor0 101))
  = [101; 101; 101] /\
  code_requests
    (fst (await_block (num := Double) (env := Sample.default_env)
            (ext := Sample.externals) (hits 3 Sample.block101) Sample.monitor0 101))
  = [("0xf1/5"%string, 2); ("0xf1/5"%string, 2); ("0xf1/5"%string, 2)].
Proof.
  destruct (poller_stuck_on_throwing_block (num := Double)
              (env := Sample.default_env) (ext := Sample.externals)
              Sample.block101 [Sample.creation] [Sample.creation'] Sample.broken
              "missing from address" 3 Sample.monitor0 101
              eq_refl eq_refl eq_refl eq_refl eq_refl) as (Hb & Hc & _).
  split; [exact Hb|exact Hc].
Defined.

(** ** The retry loop of a candidate *)

Section RetrieverEdges.
Context {num : Number} {ext : Externals}.

Lemma countdown_succ (a : string) (r : Z) (n : nat) :
  (a, r - 1) :: countdown a (r - 1) n = countdown a r (S n).
Proof.
  unfold countdown. cbn [seq map]. f_equal.
  - f_equal. lia.
  - rewrite <- (seq_shift n 0), map_map. apply map_ext. intros k.
    f_equal. lia.
Qed.

Lemma await_code_countdown (evs : list (Event string)) :
  forall (m : ChainMonitor) (a : string) (r : Z),
    exists n,
      (n <= Z.to_nat r)%nat /\ (n <= List.length evs)%nat /\
      code_requests (fst (await_code evs m a r)) = countdown a r n.
Proof.
  induction evs as [|[o|] evs IH]; intros m a r; cbn [await_code].
  - exists 0%nat. repeat split; apply Nat.le_0_l.
  - destruct (processBytecode_settled_shape a r o m) as (e & -> & Hc & _ & [Hs|[_ Hs]]);
      rewrite Hs; cbn [next_bytecode fst].
    + exists 0%nat. rewrite Hc. repeat split; apply Nat.le_0_l.
    + rewrite processBytecode_run.
      destruct (Z.leb_spec r 0) as [Hr|Hr].
      * change (code_requests []) with (@nil (string * Z)). cbn [fst].
        exists 0%nat. rewrite app_nil_r, Hc. repeat split; apply Nat.le_0_l.
      * change (code_requests [GetCode a (r - 1)]) with [(a, r - 1)].
        cbv beta iota zeta.
        destruct (IH m a (r - 1)) as (n & Hn & Hl & Hreq).
        destruct (await_code evs m a (r - 1)) as [e' m']. cbn [fst] in *.
        exists (S n). rewrite !code_requests_app, Hc, Hreq.
        cbn [app code_requests flat_map List.length].
        split; [lia|]. split; [lia|]. apply countdown_succ.
  - unfold stop, modify.
    destruct (IH (set_running false m) a r) as (n & Hn & Hl & Hreq).
    destruct (await_code evs (set_running false m) a r) as [e' m'].
    exists n. cbn [fst List.length] in *. split; [exact Hn|]. split; [lia|exact Hreq].
Qed.

(** X6.  The requests of a candidate carry the counters [R-1], [R-2], ... down to
    at most [0], one less at each retry, all for the same address; there is
    at most one request more than there were answers. *)
Theorem retriever_counts_down (evs : list (Event string)) (m : ChainMonitor)
  (a : string) (R : Z) :
  exists n,
    (n <= Z.to_nat R)%nat /\ (n <= S (List.length evs))%nat /\
    code_requests (fst (retriever evs m a R)) = countdown a R n.
Proof.
  unfold retriever. rewrite processBytecode_run.
  destruct (Z.leb_spec R 0) as [HR|HR].
  - exists 0%nat. repeat split; apply Nat.le_0_l.
  - change (code_requests [GetCode a (R - 1)]) with [(a, R - 1)].
    cbv beta iota zeta.
    destruct (await_code_countdown evs m a (R - 1)) as (n & Hn & Hl & Hreq).
    destruct (await_code evs m a (R - 1)) as [e' m']. cbn [fst] in *.
    exists (S n). rewrite code_requests_app, Hreq.
    split; [lia|]. split; [lia|]. apply countdown_succ.
Qed.

Lemma non_hex_code_is_retried_aux (a : string) (r : Z) (bytecode : string)
  (err : Error) (m : ChainMonitor) :
  bytecode <> "0x" ->
  hexToBytes bytecode = Throw err ->
  processBytecode_settled a r (Resolved bytecode) m =
  (Normal tt, m,
   Log Err "[GET_BYTECODE]" (LogBytecode a r) err
   :: (if running m
       then [SetTimeout (ProcessBytecode a r) (getBytecodeRetryPause m)]
       else [])).
Proof.
  intros Hne Hhex. apply String.eqb_neq in Hne.
  unfold processBytecode_settled, try_catch, getCode_then, getCode_catch,
    mySetTimeout, bind, lift, get, emit, ret.
  rewrite Hne, Hhex. cbn. destruct (running m); reflexivity.
Qed.

(** X7.  Code that is not a hex string: [hexToBytes] is called outside the [try]
    block, so its exception reaches the outer handler; it is logged as a
    failed fetch and the candidate goes back on the retry timer, unlike a
    decoding failure, which ends the candidate. *)
Theorem non_hex_code_is_retried (a : string) (r : Z) (bytecode : string)
  (err : Error) (m : ChainMonitor) :
  bytecode <> "0x" ->
  hexToBytes bytecode = Throw err ->
  processBytecode_settled a r (Resolved bytecode) m =
    (Normal tt, m,
     Log Err "[GET_BYTECODE]" (LogBytecode a r) err
     :: (if running m
         then [SetTimeout (ProcessBytecode a r) (getBytecodeRetryPause m)]
         else [])) /\
  processBytecode_settled a r (Resolved bytecode) m =
    processBytecode_settled a r (Rejected err) m.
Proof.
  intros Hne Hhex.
  rewrite (non_hex_code_is_retried_aux a r bytecode err m Hne Hhex).
  split; [reflexivity|].
  unfold processBytecode_settled, try_catch, getCode_catch, mySetTimeout,
    bind, throw, get, emit, ret. cbn. destruct (running m); reflexivity.
Qed.

Lemma handoffs_app (e1 e2 : list Effect) :
  handoffs (e1 ++ e2) = handoffs e1 ++ handoffs e2.
Proof. apply flat_map_app. Qed.

(** What one settled request hands off: nothing when it sets the retry
    timer, and otherwise at most the candidate with the code returned. *)
Lemma processBytecode_settled_handoff (a : string) (r : Z) (o : Settled string)
  (m : ChainMonitor) :
  exists e,
    processBytecode_settled a r o m = (Normal tt, m, e) /\
    (scheduled e = [] /\
     (handoffs e = [] \/ exists code, o = Resolved code /\ handoffs e = [(a, code)])
     \/ handoffs e = [] /\ exists t, scheduled e = [(ProcessBytecode a r, t)]).
Proof.
  destruct (non_success o) eqn:Ho.
  - destruct (processBytecode_settled_fail a r o m Ho) as (lvl & loc & msg & ->).
    eexists. split; [reflexivity|]. unfold timer.
    destruct (running m); cbn; eauto.
  - destruct o as [bytecode|err]; [|discriminate]. cbn in Ho.
    destruct (hexToBytes bytecode) as [bytes|err] eqn:Hhex.
    + rewrite (processBytecode_settled_code a r bytecode bytes m Ho Hhex).
      eexists. split; [reflexivity|]. left.
      destruct (extraction_inert a bytecode bytes) as (Hs & _ & _).
      split; [exact Hs|]. unfold extraction.
      destruct (cborDecode bytes) as [data|e1]; [|auto].
      destruct (fromCborData data) as [meta|e2]; [|auto].
      right. exists bytecode. auto.
    + apply String.eqb_neq in Ho.
      rewrite (non_hex_code_is_retried_aux a r bytecode err m Ho Hhex).
      eexists. split; [reflexivity|].
      destruct (running m); cbn; eauto.
Qed.

Lemma await_code_handoffs (evs : list (Event string)) :
  forall (m : ChainMonitor) (a : string) (r : Z),
    (List.length (handoffs (fst (await_code evs m a r))) <= 1)%nat /\
    Forall (fun h => fst h = a /\ In (Settles (Resolved (snd h))) evs)
      (handoffs (fst (await_code evs m a r))).
Proof.
  induction evs as [|[o|] evs IH]; intros m a r; cbn [await_code].
  - split; [apply Nat.le_0_l|constructor].
  - destruct (processBytecode_settled_handoff a r o m)
      as (e & -> & [[Hs [Hh|(code & -> & Hh)]]|[Hh (t & Hs)]]);
      rewrite Hs; cbn [next_bytecode fst].
    + rewrite Hh. split; [apply Nat.le_0_l|constructor].
    + rewrite Hh. split; [apply le_n|].
      constructor; [|constructor]. split; [reflexivity|left; reflexivity].
    + rewrite processBytecode_run.
      destruct (Z.leb_spec r 0) as [Hr|Hr].
      * change (code_requests []) with (@nil (string * Z)). cbn [fst].
        rewrite app_nil_r, Hh. split; [apply Nat.le_0_l|constructor].
      * change (code_requests [GetCode a (r - 1)]) with [(a, r - 1)].
        cbv beta iota zeta.
        destruct (IH m a (r - 1)) as [IHl IHa].
        destruct (await_code evs m a (r - 1)) as [e' m']. cbn [fst] in *.
        rewrite !handoffs_app, Hh. cbn [app handoffs flat_map].
        split; [exact IHl|].
        eapply Forall_impl; [|exact IHa].
        intros h [Hha Hin]. split; [exact Hha|right; exact Hin].
  - unfold stop, modify.
    destruct (IH (set_running false m) a r) as [IHl IHa].
    destruct (await_code evs (set_running false m) a r) as [e' m'].
    cbn [fst] in *. split; [exact IHl|].
    eapply Forall_impl; [|exact IHa].
    intros h [Hha Hin]. split; [exact Hha|right; exact Hin].
Qed.

(** X8.  A candidate is handed to the source fetcher at most once, under its own
    address and with code the provider returned for it, whatever the provider
    answers and whenever [stop] is called. *)
Theorem candidate_handed_off_at_most_once (evs : list (Event string))
  (m : ChainMonitor) (a : string) (R : Z) :
  (List.length (handoffs (fst (retriever evs m a R))) <= 1)%nat /\
  Forall (fun h => fst h = a /\ In (Settles (Resolved (snd h))) evs)
    (handoffs (fst (retriever evs m a R))).
Proof.
  unfold retriever. rewrite processBytecode_run.
  destruct (Z.leb_spec R 0) as [HR|HR].
  - split; [apply Nat.le_0_l|constructor].
  - change (code_requests [GetCode a (R - 1)]) with [(a, R - 1)].
    cbv beta iota zeta.
    destruct (await_code_handoffs evs m a (R - 1)) as [Hl Ha].
    destruct (await_code evs m a (R - 1)) as [e' m']. cbn [fst] in *.
    rewrite handoffs_app. exact (conj Hl Ha).
Qed.

End RetrieverEdges.

Lemma non_hex_code_is_retried_witness :
  processBytecode_settled (num := Double) (ext := Sample.externals) "0xc0" 2
    (Resolved "0xZZ") Sample.monitor0
  = (Normal tt, Sample.monitor0,
     [Log (num := Double) (ext := Sample.externals) Err "[GET_BYTECODE]"
        (LogBytecode "0xc0" 2) "Given value is not a valid hex string.";
      SetTimeout (num := Double) (ProcessBytecode "0xc0" 2) 5000%float]).
Proof.
  apply (non_hex_code_is_retried (num := Double) (ext := Sample.externals)
           "0xc0" 2 "0xZZ" "Given value is not a valid hex string." Sample.monitor0);
    [discriminate|reflexivity].
Defined.

(** ** What changes the monitor *)

Section State.
Context {num : Number} {env : ProcessEnv} {ext : Externals}.

(** X10.  Only [start], [stop] and a settled block request change the monitor:
    timers firing, settled code requests (whatever the decoders throw), and
    the callbacks of the source fetcher and of the injector leave the pause,
    the flag and the tunables as they were. *)
Theorem only_poller_changes_monitor (ts : list Task) (m : ChainMonitor) :
  forallb beside_poller ts = true ->
  snd (run_tasks ts m) = m.
Proof.
  revert m. induction ts as [|t ts IH]; intros m Hts; [reflexivity|].
  cbn [forallb] in Hts. apply andb_true_iff in Hts as [Ht Hts].
  cbn [run_tasks].
  pose proof (run_task_monitor t m) as Hm.
  destruct (run_task t m) as [[c m1] e1]. cbn [fst snd] in Hm.
  specialize (IH m1 Hts).
  destruct (run_tasks ts m1) as [e m']. cbn [snd] in *.
  rewrite IH, Hm.
  destruct t as [ |so| |h|bn o|a r o|a b k|a k o]; try discriminate; reflexivity.
Qed.

End State.

Lemma only_poller_changes_monitor_witness :
  snd (run_tasks (num := Double) (env := Sample.default_env) (ext := Sample.externals)
         [TimerFires (ProcessBytecode "0xc0" 3);
          CodeSettled "0xc0" 2 (Resolved "0x");
          CodeSettled "0xc0" 1 (Resolved "0x60806040330033");
          Assembled (ext := Sample.externals) "0xc0" "0x60806040330033" "Token";
          InjectSettled (ext := Sample.externals) "0xc0" "Token" (Rejected "no match")]
         Sample.monitor0) = Sample.monitor0.
Proof.
  apply (only_poller_changes_monitor (num := Double) (env := Sample.default_env)
           (ext := Sample.externals)).
  reflexivity.
Defined.

(** ** The tunables *)

Section Tunables.
Context {env : ProcessEnv}.

Local Open Scope Q_scope.

(** X11.  No tunable can be set to zero: a variable that is unset, not a number or
    [0] gives the default, and every default is non-zero.  So the division by
    the factor is never by zero, and retries cannot be switched off with
    [INITIAL_GET_BYTECODE_TRIES=0]. *)
Theorem tunables_never_zero (chain : string) :
  ~ BLOCK_PAUSE_FACTOR (num := Rational) == 0 /\
  ~ BLOCK_PAUSE_UPPER_LIMIT (num := Rational) == 0 /\
  ~ BLOCK_PAUSE_LOWER_LIMIT (num := Rational) == 0 /\
  ~ getBlockPause (new_ChainMonitor (num := Rational) chain) == 0 /\
  ~ getBytecodeRetryPause (new_ChainMonitor (num := Rational) chain) == 0 /\
  initialGetBytecodeTries (new_ChainMonitor (num := Rational) chain) <> 0%Z.
Proof.
  repeat split; try (apply or_default_nonzero; vm_compute; discriminate).
  cbn [initialGetBytecodeTries new_ChainMonitor]. unfold or_default_Z.
  destruct env_INITIAL_GET_BYTECODE_TRIES as [z|]; [|discriminate].
  destruct (Z.eqb_spec z 0); [discriminate|assumption].
Qed.

End Tunables.

(** ** The pause over many polls, under the default tunables *)

Section DefaultRuns.
Context {env : ProcessEnv} {ext : Externals}.
#[local] Existing Instance Double.

Lemma iter_default (N : nat) (p : float) :
  default_tunables env ->
  Nat.iter N grow p = Nat.iter N (grow (env := Sample.default_env)) p /\
  Nat.iter N shrink p = Nat.iter N (shrink (env := Sample.default_env)) p.
Proof.
  intros Hd. induction N as [|N [IHg IHs]]; [split; reflexivity|].
  rewrite !Nat.iter_succ, IHg, IHs, (grow_default _ Hd), (shrink_default _ Hd).
  split; reflexivity.
Qed.

Lemma iter_fixed (f : float -> float) (x : float) (N : nat) :
  f x = x -> Nat.iter N f x = x.
Proof.
  intros Hx. induction N as [|N IH]; [reflexivity|].
  rewrite Nat.iter_succ, IH. exact Hx.
Qed.

(** X13.  With the default tunables, from any state the monitor can get
    into, 43 misses in a row or more leave the pause at exactly the upper
    limit, and 43 found blocks in a row or more at exactly the lower limit;
    and a single miss makes the pause strictly longer unless it is the upper
    limit already. *)
Theorem pause_reaches_limits (b : Block) (m : ChainMonitor) (bn : Z) (N : nat) :
  default_tunables env ->
  reachable m ->
  running m = true ->
  (43 <= N)%nat ->
  getBlockPause (snd (await_block (misses N) m bn)) = BLOCK_PAUSE_UPPER_LIMIT /\
  getBlockPause (snd (await_block (hits N b) m bn)) = BLOCK_PAUSE_LOWER_LIMIT /\
  (PrimFloat.ltb (getBlockPause m) BLOCK_PAUSE_UPPER_LIMIT = true ->
   PrimFloat.ltb (getBlockPause m)
     (getBlockPause (snd (await_block (misses 1) m bn))) = true).
Proof.
  intros Hd Hreach Hrun HN.
  pose proof (reachable_default_pause m Hd Hreach) as Hin.
  destruct default_pauses_saturate as (Hall & Hup & Hdown).
  rewrite forallb_forall in Hall. specialize (Hall _ Hin). cbv beta in Hall.
  apply andb_true_iff in Hall as [Hall Hgrow].
  apply andb_true_iff in Hall as [Hmiss Hhit].
  apply FloatAxioms.Leibniz.eqb_spec in Hmiss, Hhit.
  destruct (await_misses N m bn Hrun) as (-> & _).
  destruct (await_misses 1 m bn Hrun) as (-> & _).
  rewrite (await_hits b N m bn Hrun), !grown_iter, shrunk_iter.
  destruct (iter_default N (getBlockPause m) Hd) as [-> ->].
  replace N with ((N - 43) + 43)%nat by lia.
  rewrite !Nat.iter_add, Hmiss, Hhit.
  rewrite (iter_fixed _ _ _ Hup), (iter_fixed _ _ _ Hdown).
  destruct Hd as (Hf & Hu & Hl & _).
  split; [symmetry; exact Hu|]. split; [symmetry; exact Hl|].
  intros Hlt. rewrite Hu in Hlt. rewrite Hlt in Hgrow.
  cbn [Nat.iter]. unfold grow at 1. rewrite Hf, Hu. exact Hgrow.
Qed.

End DefaultRuns.

Lemma pause_reaches_limits_witness :
  getBlockPause
    (snd (await_block (num := Double) (env := Sample.default_env)
            (ext := Sample.externals) (misses 50) Sample.monitor0 100))
  = 30000%float /\
  getBlockPause
    (snd (await_block (num := Double) (env := Sample.default_env)
            (ext := Sample.externals) (hits 50 Sample.block101) Sample.monitor0 100))
  = 500%float.
Proof.
  assert (Hd : default_tunables Sample.default_env) by (repeat split).
  assert (Hreach : reachable (num := Double) (env := Sample.default_env)
                     (ext := Sample.externals) Sample.monitor0)
    by (exists "1"%string, [CallStart]; reflexivity).
  destruct (pause_reaches_limits (env := Sample.default_env) (ext := Sample.externals)
              Sample.block101 Sample.monitor0 100 50 Hd Hreach eq_refl ltac:(lia))
    as (Hm & Hh & _).
  split; [rewrite Hm|rewrite Hh]; reflexivity.
Defined.

(** ** The supervisor *)

Section SupervisorLaws.
Context {num : Number} {env : ProcessEnv} {ext : Externals}.

Lemma forEach_stop (cms : list ChainMonitor) :
  forEach (fun _ => stop) cms = (map (set_running false) cms, []).
Proof.
  induction cms as [|cm cms IH]; [reflexivity|].
  cbn [forEach map]. unfold stop at 1, modify. rewrite IH. reflexivity.
Qed.

(** X16.  [Monitor.stop] clears the flag of every chain monitor and stops the
    source fetcher; calling it again changes nothing; and afterwards no
    callback of any chain sets a timer, whatever runs ([start] apart). *)
Theorem supervisor_stop_stops_every_chain (mon : Monitor) (cm : ChainMonitor)
  (ts : list Task) :
  In cm (chainMonitors (fst (Monitor_stop mon))) ->
  existsb is_start ts = false ->
  running cm = false /\
  scheduled (fst (run_tasks ts cm)) = [] /\
  snd (Monitor_stop mon) = [SourceFetcherStop] /\
  Monitor_stop (fst (Monitor_stop mon)) = Monitor_stop mon.
Proof.
  unfold Monitor_stop. rewrite forEach_stop. cbn [fst snd chainMonitors app].
  intros Hin Hts. apply in_map_iff in Hin as (cm0 & <- & _).
  split; [reflexivity|].
  split; [apply run_tasks_stopped; [exact Hts|reflexivity]|].
  split; [reflexivity|].
  rewrite forEach_stop, map_map. reflexivity.
Qed.

End SupervisorLaws.

Lemma supervisor_stop_stops_every_chain_witness :
  scheduled
    (fst (run_tasks (num := Double) (env := Sample.default_env)
            (ext := Sample.externals)
            [TimerFires (ProcessBlock 7); BlockSettled 7 (Resolved None)]
            (set_running false (new_ChainMonitor (env := Sample.default_env) "5"))))
  = [].
Proof.
  assert (Hin : In (set_running false (new_ChainMonitor (env := Sample.default_env) "5"))
                  (chainMonitors
                     (fst (Monitor_stop (num := Double) (ext := Sample.externals)
                             (new_Monitor (env := Sample.default_env)
                                [SampleChains.mainnet; SampleChains.goerli]))))).
  { right. left. reflexivity. }
  destruct (supervisor_stop_stops_every_chain (num := Double)
              (env := Sample.default_env) (ext := Sample.externals)
              _ _ [TimerFires (ProcessBlock 7); BlockSettled 7 (Resolved None)]
              Hin eq_refl) as (_ & Hs & _).
  exact Hs.
Defined.

(** ** The scan of any block, and the timers of a candidate *)

Section ScanAny.
Context {num : Number} {env : ProcessEnv} {ext : Externals}.

(** X5.  Whatever the block, the scan asks for the code of exactly the addresses
    derived from the creations before the first one on which the derivation
    throws, in block order, each with the initial number of tries less one;
    with a non-positive number of tries (a negative value configured) it asks
    for nothing at all. *)
Theorem scan_dispatches_scanned (b : Block) (m : ChainMonitor) (bn : Z) :
  code_requests
    (snd (processBlock_settled (Resolved (Some b)) {| this := m; blockNumber := bn |}))
  = (if initialGetBytecodeTries m <=? 0 then []
     else map (fun a => (a, initialGetBytecodeTries m - 1))
            (candidates (scanned (transactions b)))) /\
  Forall2 derived (filter createsContract (scanned (transactions b)))
    (candidates (scanned (transactions b))).
Proof.
  assert (Hd : forall txs, forallb derives (scanned txs) = true).
  { induction txs as [|tx txs IH]; [reflexivity|]. cbn [scanned].
    destruct (derives tx) eqn:Ht; [|reflexivity].
    cbn [forallb]. rewrite Ht. exact IH. }
  split.
  - destruct (processBlock_found b m bn) as (c & e & Hscan & _ & _ & ->).
    destruct (scan_any (transactions b) {| this := shrunk m; blockNumber := bn |})
      as (c' & Hany).
    rewrite Hscan in Hany. injection Hany as _ ->.
    assert (Hreq : code_requests (dispatched m (candidates (scanned (transactions b))))
                   = if initialGetBytecodeTries m <=? 0 then []
                     else map (fun a => (a, initialGetBytecodeTries m - 1))
                            (candidates (scanned (transactions b)))).
    { destruct (Z.leb_spec (initialGetBytecodeTries m) 0) as [Hle|Hlt].
      - apply code_requests_dispatched_none. exact Hle.
      - apply code_requests_dispatched. exact Hlt. }
    change (dispatched (shrunk m) (candidates (scanned (transactions b))))
      with (dispatched m (candidates (scanned (transactions b)))).
    unfold timer.
    destruct c as [[]|err]; cbn [snd]; rewrite code_requests_app, Hreq;
      destruct (running m); cbn; rewrite app_nil_r; reflexivity.
  - apply (scan_completes (scanned (transactions b))
             {| this := m; blockNumber := bn |} (Hd _)).
Qed.

End ScanAny.

Section RetryTimers.
Context {num : Number} {ext : Externals}.

Lemma await_code_timers (evs : list (Event string)) :
  forall (m : ChainMonitor) (a : string) (r : Z),
    Forall (fun t => (exists r', fst t = ProcessBytecode a r') /\
                     snd t = getBytecodeRetryPause m)
      (scheduled (fst (await_code evs m a r))).
Proof.
  induction evs as [|[o|] evs IH]; intros m a r; cbn [await_code].
  - constructor.
  - destruct (processBytecode_settled_shape a r o m) as (e & -> & _ & _ & [Hs|[_ Hs]]);
      rewrite Hs; cbn [next_bytecode fst].
    + rewrite Hs. constructor.
    + rewrite processBytecode_run.
      destruct (Z.leb_spec r 0) as [Hr|Hr].
      * change (code_requests []) with (@nil (string * Z)). cbn [fst].
        rewrite app_nil_r, Hs. constructor; [|constructor].
        split; [eexists; reflexivity|reflexivity].
      * change (code_requests [GetCode a (r - 1)]) with [(a, r - 1)].
        cbv beta iota zeta.
        specialize (IH m a (r - 1)).
        destruct (await_code evs m a (r - 1)) as [e' m']. cbn [fst] in *.
        rewrite !scheduled_app, Hs. cbn [app scheduled flat_map].
        constructor; [split; [eexists; reflexivity|reflexivity]|exact IH].
  - unfold stop, modify.
    specialize (IH (set_running false m) a r).
    destruct (await_code evs (set_running false m) a r) as [e' m']. exact IH.
Qed.

(** X9.  Every timer the retry loop of a candidate sets is for [processBytecode]
    on the candidate's own address and carries the fixed retry pause: the
    retries are never paced by the adaptive block pause. *)
Theorem retry_timers_use_fixed_pause (evs : list (Event string)) (m : ChainMonitor)
  (a : string) (R : Z) :
  Forall (fun t => (exists r', fst t = ProcessBytecode a r') /\
                   snd t = getBytecodeRetryPause m)
    (scheduled (fst (retriever evs m a R))).
Proof.
  unfold retriever. rewrite processBytecode_run.
  destruct (Z.leb_spec R 0) as [HR|HR]; [constructor|].
  change (code_requests [GetCode a (R - 1)]) with [(a, R - 1)].
  cbv beta iota zeta.
  pose proof (await_code_timers evs m a (R - 1)) as Ht.
  destruct (await_code evs m a (R - 1)) as [e' m']. cbn [fst] in *.
  rewrite scheduled_app. exact Ht.
Qed.

End RetryTimers.
